(** * Text-layout primitives of the terminal toolkit: a shallow embedding

    Three packages are covered:
    - [wcwidth]: column width of runes and strings;
    - [cellbuf]: the escape-aware word wrapper ([cellbuf/wrap.go]);
    - [vt]: the damage model ([vt/damage.go]).

    Go strings and [bytes.Buffer]s are lists of bytes, a byte being an
    integer in [0, 255].  Go's [int] is 64 bits wide; every counter of the
    wrapper is a sum of decoded widths and buffer lengths, far below 2^63 for
    any string that fits in memory, so the counters are plain integers. *)

From Stdlib Require Import String Ascii DecimalString.
From Stdlib Require Import ZArith List Bool Lia.
Import ListNotations.
Open Scope Z_scope.

(* ================================================================== *)
(** * Bytes *)

Definition byte := Z.
Definition bytes := list byte.

(** A string literal as the bytes it is made of. *)
Definition str (s : string) : bytes :=
  map (fun a => Z.of_N (N_of_ascii a)) (list_ascii_of_string s).

(** [len(b)] *)
Definition len (b : bytes) : Z := Z.of_nat (length b).

Definition LF : byte := 0x0A.
Definition ESC : byte := 0x1B.
Definition BEL : byte := 0x07.

(** [lo <= c <= hi] *)
Definition between (lo hi c : Z) : bool := (lo <=? c) && (c <=? hi).

(* ================================================================== *)
(** * unicode/utf8 and unicode (Go standard library) *)

Module utf8.

Definition RuneError : Z := 0xFFFD.

Definition cont (c : byte) : bool := between 0x80 0xBF c.

(** [utf8.DecodeRuneInString]: the first rune of [b] and its size in bytes;
    an invalid or short encoding is [(RuneError, 1)], the empty string
    [(RuneError, 0)]. *)
Definition DecodeRune (b : bytes) : Z * nat :=
  match b with
  | [] => (RuneError, 0%nat)
  | b0 :: r1 =>
    if b0 <? 0x80 then (b0, 1%nat)
    else if between 0xC2 0xDF b0 then
      match r1 with
      | b1 :: _ =>
        if cont b1
        then (Z.lor (Z.shiftl (Z.land b0 0x1F) 6) (Z.land b1 0x3F), 2%nat)
        else (RuneError, 1%nat)
      | [] => (RuneError, 1%nat)
      end
    else if between 0xE0 0xEF b0 then
      match r1 with
      | b1 :: b2 :: _ =>
        let lo := if b0 =? 0xE0 then 0xA0 else 0x80 in
        let hi := if b0 =? 0xED then 0x9F else 0xBF in
        if between lo hi b1 && cont b2
        then (Z.lor (Z.shiftl (Z.land b0 0x0F) 12)
                (Z.lor (Z.shiftl (Z.land b1 0x3F) 6) (Z.land b2 0x3F)), 3%nat)
        else (RuneError, 1%nat)
      | _ => (RuneError, 1%nat)
      end
    else if between 0xF0 0xF4 b0 then
      match r1 with
      | b1 :: b2 :: b3 :: _ =>
        let lo := if b0 =? 0xF0 then 0x90 else 0x80 in
        let hi := if b0 =? 0xF4 then 0x8F else 0xBF in
        if between lo hi b1 && cont b2 && cont b3
        then (Z.lor (Z.shiftl (Z.land b0 0x07) 18)
                (Z.lor (Z.shiftl (Z.land b1 0x3F) 12)
                   (Z.lor (Z.shiftl (Z.land b2 0x3F) 6) (Z.land b3 0x3F))), 4%nat)
        else (RuneError, 1%nat)
      | _ => (RuneError, 1%nat)
      end
    else (RuneError, 1%nat)
  end.

(** The runes of a string, as [[]rune(s)] and [for _, c := range s] see
    them.  Each round consumes at least one byte, so [length b] rounds are
    enough (lemma [runesFrom_enough]). *)
Fixpoint runesFrom (fuel : nat) (b : bytes) : list Z :=
  match fuel, b with
  | S fuel', _ :: _ =>
    let '(r, n) := DecodeRune b in r :: runesFrom fuel' (skipn n b)
  | _, _ => []
  end.

Definition runes (b : bytes) : list Z := runesFrom (length b) b.

(** [utf8.RuneCountInString] *)
Definition RuneCountInString (b : bytes) : Z := Z.of_nat (length (runes b)).

End utf8.

(** [unicode.IsSpace]: the White_Space property. *)
Definition IsSpace (r : Z) : bool :=
  between 0x09 0x0D r || (r =? 0x20) || (r =? 0x85) || (r =? 0xA0) ||
  (r =? 0x1680) || between 0x2000 0x200A r || (r =? 0x2028) ||
  (r =? 0x2029) || (r =? 0x202F) || (r =? 0x205F) || (r =? 0x3000).

(** [len(strings.TrimSpace(seq)) == 0]: nothing is left once leading and
    trailing white space is trimmed, that is every rune is white space. *)
Definition TrimSpace_empty (seq : bytes) : bool :=
  forallb IsSpace (utf8.runes seq).

(* ================================================================== *)
(** * wcwidth: the width table *)

Module wcwidth.

(** A table of inclusive code-point ranges. *)
Definition table := list (Z * Z).

Definition inTable (r : Z) (t : table) : bool :=
  existsb (fun iv => between (fst iv) (snd iv) r) t.

(** Modelled from the spec: the classification data of the width table
    (package [wcwidth], whose implementation is not among the sources at
    hand; only its tests are).  The spec names three classes.  Zero:
    control characters, combining marks, zero-width joiners, variation
    selectors and other zero-width format characters; here the combining
    marks (the variation selectors are among them) are one table and the
    control and format characters (the zero-width joiner is among them)
    another.  Wide: East-Asian Wide and Fullwidth.  Ambiguous. *)
Record WidthTable := {
  combining : table;
  zeroFormat : table;
  wide : table;
  ambiguous : table
}.

(** Modelled from the spec: [RuneWidth(r, eastAsianMode) -> {0,1,2}].
    Ambiguous code points are narrow by default and wide in east-Asian
    mode. *)
Definition RuneWidthIn (t : WidthTable) (eastAsian : bool) (r : Z) : Z :=
  if inTable r (combining t) || inTable r (zeroFormat t) then 0
  else if inTable r (wide t) then 2
  else if inTable r (ambiguous t) then (if eastAsian then 2 else 1)
  else 1.

(** Modelled from the spec: [StringWidth] decodes the input into runes
    (an invalid encoding unit is one placeholder rune) and adds up their
    widths in a running total, one rune at a time. *)
Definition StringWidthIn (t : WidthTable) (eastAsian : bool) (s : bytes) : Z :=
  fold_left (fun n c => n + RuneWidthIn t eastAsian c) (utf8.runes s) 0.

(** The sum of a list of widths. *)
Definition sumZ (l : list Z) : Z := fold_right Z.add 0 l.

(** Modelled from the spec: the combining marks of Unicode 14.0.0, that
    is every assigned code point of General Category Mn, Mc or Me.  The
    spec leaves the Unicode version open; this is the pinned one. *)
Definition combiningMarks : table :=
    [ (0x0300, 0x036F); (0x0483, 0x0489); (0x0591, 0x05BD);
      (0x05BF, 0x05BF); (0x05C1, 0x05C2); (0x05C4, 0x05C5);
      (0x05C7, 0x05C7); (0x0610, 0x061A); (0x064B, 0x065F);
      (0x0670, 0x0670); (0x06D6, 0x06DC); (0x06DF, 0x06E4);
      (0x06E7, 0x06E8); (0x06EA, 0x06ED); (0x0711, 0x0711);
      (0x0730, 0x074A); (0x07A6, 0x07B0); (0x07EB, 0x07F3);
      (0x07FD, 0x07FD); (0x0816, 0x0819); (0x081B, 0x0823);
      (0x0825, 0x0827); (0x0829, 0x082D); (0x0859, 0x085B);
      (0x0898, 0x089F); (0x08CA, 0x08E1); (0x08E3, 0x0903);
      (0x093A, 0x093C); (0x093E, 0x094F); (0x0951, 0x0957);
      (0x0962, 0x0963); (0x0981, 0x0983); (0x09BC, 0x09BC);
      (0x09BE, 0x09C4); (0x09C7, 0x09C8); (0x09CB, 0x09CD);
      (0x09D7, 0x09D7); (0x09E2, 0x09E3); (0x09FE, 0x09FE);
      (0x0A01, 0x0A03); (0x0A3C, 0x0A3C); (0x0A3E, 0x0A42);
      (0x0A47, 0x0A48); (0x0A4B, 0x0A4D); (0x0A51, 0x0A51);
      (0x0A70, 0x0A71); (0x0A75, 0x0A75); (0x0A81, 0x0A83);
      (0x0ABC, 0x0ABC); (0x0ABE, 0x0AC5); (0x0AC7, 0x0AC9);
      (0x0ACB, 0x0ACD); (0x0AE2, 0x0AE3); (0x0AFA, 0x0AFF);
      (0x0B01, 0x0B03); (0x0B3C, 0x0B3C); (0x0B3E, 0x0B44);
      (0x0B47, 0x0B48); (0x0B4B, 0x0B4D); (0x0B55, 0x0B57);
      (0x0B62, 0x0B63); (0x0B82, 0x0B82); (0x0BBE, 0x0BC2);
      (0x0BC6, 0x0BC8); (0x0BCA, 0x0BCD); (0x0BD7, 0x0BD7);
      (0x0C00, 0x0C04); (0x0C3C, 0x0C3C); (0x0C3E, 0x0C44);
      (0x0C46, 0x0C48); (0x0C4A, 0x0C4D); (0x0C55, 0x0C56);
      (0x0C62, 0x0C63); (0x0C81, 0x0C83); (0x0CBC, 0x0CBC);
      (0x0CBE, 0x0CC4); (0x0CC6, 0x0CC8); (0x0CCA, 0x0CCD);
      (0x0CD5, 0x0CD6); (0x0CE2, 0x0CE3); (0x0D00, 0x0D03);
      (0x0D3B, 0x0D3C); (0x0D3E, 0x0D44); (0x0D46, 0x0D48);
      (0x0D4A, 0x0D4D); (0x0D57, 0x0D57); (0x0D62, 0x0D63);
      (0x0D81, 0x0D83); (0x0DCA, 0x0DCA); (0x0DCF, 0x0DD4);
      (0x0DD6, 0x0DD6); (0x0DD8, 0x0DDF); (0x0DF2, 0x0DF3);
      (0x0E31, 0x0E31); (0x0E34, 0x0E3A); (0x0E47, 0x0E4E);
      (0x0EB1, 0x0EB1); (0x0EB4, 0x0EBC); (0x0EC8, 0x0ECD);
      (0x0F18, 0x0F19); (0x0F35, 0x0F35); (0x0F37, 0x0F37);
      (0x0F39, 0x0F39); (0x0F3E, 0x0F3F); (0x0F71, 0x0F84);
      (0x0F86, 0x0F87); (0x0F8D, 0x0F97); (0x0F99, 0x0FBC);
      (0x0FC6, 0x0FC6); (0x102B, 0x103E); (0x1056, 0x1059);
      (0x105E, 0x1060); (0x1062, 0x1064); (0x1067, 0x106D);
      (0x1071, 0x1074); (0x1082, 0x108D); (0x108F, 0x108F);
      (0x109A, 0x109D); (0x135D, 0x135F); (0x1712, 0x1715);
      (0x1732, 0x1734); (0x1752, 0x1753); (0x1772, 0x1773);
      (0x17B4, 0x17D3); (0x17DD, 0x17DD); (0x180B, 0x180D);
      (0x180F, 0x180F); (0x1885, 0x1886); (0x18A9, 0x18A9);
      (0x1920, 0x192B); (0x1930, 0x193B); (0x1A17, 0x1A1B);
      (0x1A55, 0x1A5E); (0x1A60, 0x1A7C); (0x1A7F, 0x1A7F);
      (0x1AB0, 0x1ACE); (0x1B00, 0x1B04); (0x1B34, 0x1B44);
      (0x1B6B, 0x1B73); (0x1B80, 0x1B82); (0x1BA1, 0x1BAD);
      (0x1BE6, 0x1BF3); (0x1C24, 0x1C37); (0x1CD0, 0x1CD2);
      (0x1CD4, 0x1CE8); (0x1CED, 0x1CED); (0x1CF4, 0x1CF4);
      (0x1CF7, 0x1CF9); (0x1DC0, 0x1DFF); (0x20D0, 0x20F0);
      (0x2CEF, 0x2CF1); (0x2D7F, 0x2D7F); (0x2DE0, 0x2DFF);
      (0x302A, 0x302F); (0x3099, 0x309A); (0xA66F, 0xA672);
      (0xA674, 0xA67D); (0xA69E, 0xA69F); (0xA6F0, 0xA6F1);
      (0xA802, 0xA802); (0xA806, 0xA806); (0xA80B, 0xA80B);
      (0xA823, 0xA827); (0xA82C, 0xA82C); (0xA880, 0xA881);
      (0xA8B4, 0xA8C5); (0xA8E0, 0xA8F1); (0xA8FF, 0xA8FF);
      (0xA926, 0xA92D); (0xA947, 0xA953); (0xA980, 0xA983);
      (0xA9B3, 0xA9C0); (0xA9E5, 0xA9E5); (0xAA29, 0xAA36);
      (0xAA43, 0xAA43); (0xAA4C, 0xAA4D); (0xAA7B, 0xAA7D);
      (0xAAB0, 0xAAB0); (0xAAB2, 0xAAB4); (0xAAB7, 0xAAB8);
      (0xAABE, 0xAABF); (0xAAC1, 0xAAC1); (0xAAEB, 0xAAEF);
      (0xAAF5, 0xAAF6); (0xABE3, 0xABEA); (0xABEC, 0xABED);
      (0xFB1E, 0xFB1E); (0xFE00, 0xFE0F); (0xFE20, 0xFE2F);
      (0x101FD, 0x101FD); (0x102E0, 0x102E0); (0x10376, 0x1037A);
      (0x10A01, 0x10A03); (0x10A05, 0x10A06); (0x10A0C, 0x10A0F);
      (0x10A38, 0x10A3A); (0x10A3F, 0x10A3F); (0x10AE5, 0x10AE6);
      (0x10D24, 0x10D27); (0x10EAB, 0x10EAC); (0x10F46, 0x10F50);
      (0x10F82, 0x10F85); (0x11000, 0x11002); (0x11038, 0x11046);
      (0x11070, 0x11070); (0x11073, 0x11074); (0x1107F, 0x11082);
      (0x110B0, 0x110BA); (0x110C2, 0x110C2); (0x11100, 0x11102);
      (0x11127, 0x11134); (0x11145, 0x11146); (0x11173, 0x11173);
      (0x11180, 0x11182); (0x111B3, 0x111C0); (0x111C9, 0x111CC);
      (0x111CE, 0x111CF); (0x1122C, 0x11237); (0x1123E, 0x1123E);
      (0x112DF, 0x112EA); (0x11300, 0x11303); (0x1133B, 0x1133C);
      (0x1133E, 0x11344); (0x11347, 0x11348); (0x1134B, 0x1134D);
      (0x11357, 0x11357); (0x11362, 0x11363); (0x11366, 0x1136C);
      (0x11370, 0x11374); (0x11435, 0x11446); (0x1145E, 0x1145E);
      (0x114B0, 0x114C3); (0x115AF, 0x115B5); (0x115B8, 0x115C0);
      (0x115DC, 0x115DD); (0x11630, 0x11640); (0x116AB, 0x116B7);
      (0x1171D, 0x1172B); (0x1182C, 0x1183A); (0x11930, 0x11935);
      (0x11937, 0x11938); (0x1193B, 0x1193E); (0x11940, 0x11940);
      (0x11942, 0x11943); (0x119D1, 0x119D7); (0x119DA, 0x119E0);
      (0x119E4, 0x119E4); (0x11A01, 0x11A0A); (0x11A33, 0x11A39);
      (0x11A3B, 0x11A3E); (0x11A47, 0x11A47); (0x11A51, 0x11A5B);
      (0x11A8A, 0x11A99); (0x11C2F, 0x11C36); (0x11C38, 0x11C3F);
      (0x11C92, 0x11CA7); (0x11CA9, 0x11CB6); (0x11D31, 0x11D36);
      (0x11D3A, 0x11D3A); (0x11D3C, 0x11D3D); (0x11D3F, 0x11D45);
      (0x11D47, 0x11D47); (0x11D8A, 0x11D8E); (0x11D90, 0x11D91);
      (0x11D93, 0x11D97); (0x11EF3, 0x11EF6); (0x16AF0, 0x16AF4);
      (0x16B30, 0x16B36); (0x16F4F, 0x16F4F); (0x16F51, 0x16F87);
      (0x16F8F, 0x16F92); (0x16FE4, 0x16FE4); (0x16FF0, 0x16FF1);
      (0x1BC9D, 0x1BC9E); (0x1CF00, 0x1CF2D); (0x1CF30, 0x1CF46);
      (0x1D165, 0x1D169); (0x1D16D, 0x1D172); (0x1D17B, 0x1D182);
      (0x1D185, 0x1D18B); (0x1D1AA, 0x1D1AD); (0x1D242, 0x1D244);
      (0x1DA00, 0x1DA36); (0x1DA3B, 0x1DA6C); (0x1DA75, 0x1DA75);
      (0x1DA84, 0x1DA84); (0x1DA9B, 0x1DA9F); (0x1DAA1, 0x1DAAF);
      (0x1E000, 0x1E006); (0x1E008, 0x1E018); (0x1E01B, 0x1E021);
      (0x1E023, 0x1E024); (0x1E026, 0x1E02A); (0x1E130, 0x1E136);
      (0x1E2AE, 0x1E2AE); (0x1E2EC, 0x1E2EF); (0x1E8D0, 0x1E8D6);
      (0x1E944, 0x1E94A); (0xE0100, 0xE01EF) ].

(** Modelled from the spec: the control characters (Cc), the format
    characters (Cf, the zero-width joiner U+200D among them) and the line
    and paragraph separators of Unicode 14.0.0. *)
Definition controlAndFormat : table :=
    [ (0x0000, 0x001F); (0x007F, 0x009F); (0x00AD, 0x00AD);
      (0x0600, 0x0605); (0x061C, 0x061C); (0x06DD, 0x06DD);
      (0x070F, 0x070F); (0x0890, 0x0891); (0x08E2, 0x08E2);
      (0x180E, 0x180E); (0x200B, 0x200F); (0x2028, 0x202E);
      (0x2060, 0x2064); (0x2066, 0x206F); (0xFEFF, 0xFEFF);
      (0xFFF9, 0xFFFB); (0x110BD, 0x110BD); (0x110CD, 0x110CD);
      (0x13430, 0x13438); (0x1BCA0, 0x1BCA3); (0x1D173, 0x1D17A);
      (0xE0001, 0xE0001); (0xE0020, 0xE007F) ].

(** Modelled from the spec: the assigned code points of Unicode 14.0.0
    whose East Asian Width is Wide or Fullwidth. *)
Definition eastAsianWide : table :=
    [ (0x1100, 0x115F); (0x231A, 0x231B); (0x2329, 0x232A);
      (0x23E9, 0x23EC); (0x23F0, 0x23F0); (0x23F3, 0x23F3);
      (0x25FD, 0x25FE); (0x2614, 0x2615); (0x2648, 0x2653);
      (0x267F, 0x267F); (0x2693, 0x2693); (0x26A1, 0x26A1);
      (0x26AA, 0x26AB); (0x26BD, 0x26BE); (0x26C4, 0x26C5);
      (0x26CE, 0x26CE); (0x26D4, 0x26D4); (0x26EA, 0x26EA);
      (0x26F2, 0x26F3); (0x26F5, 0x26F5); (0x26FA, 0x26FA);
      (0x26FD, 0x26FD); (0x2705, 0x2705); (0x270A, 0x270B);
      (0x2728, 0x2728); (0x274C, 0x274C); (0x274E, 0x274E);
      (0x2753, 0x2755); (0x2757, 0x2757); (0x2795, 0x2797);
      (0x27B0, 0x27B0); (0x27BF, 0x27BF); (0x2B1B, 0x2B1C);
      (0x2B50, 0x2B50); (0x2B55, 0x2B55); (0x2E80, 0x2E99);
      (0x2E9B, 0x2EF3); (0x2F00, 0x2FD5); (0x2FF0, 0x2FFB);
      (0x3000, 0x303E); (0x3041, 0x3096); (0x3099, 0x30FF);
      (0x3105, 0x312F); (0x3131, 0x318E); (0x3190, 0x31E3);
      (0x31F0, 0x321E); (0x3220, 0x3247); (0x3250, 0x4DBF);
      (0x4E00, 0xA48C); (0xA490, 0xA4C6); (0xA960, 0xA97C);
      (0xAC00, 0xD7A3); (0xF900, 0xFA6D); (0xFA70, 0xFAD9);
      (0xFE10, 0xFE19); (0xFE30, 0xFE52); (0xFE54, 0xFE66);
      (0xFE68, 0xFE6B); (0xFF01, 0xFF60); (0xFFE0, 0xFFE6);
      (0x16FE0, 0x16FE4); (0x16FF0, 0x16FF1); (0x17000, 0x187F7);
      (0x18800, 0x18CD5); (0x18D00, 0x18D08); (0x1AFF0, 0x1AFF3);
      (0x1AFF5, 0x1AFFB); (0x1AFFD, 0x1AFFE); (0x1B000, 0x1B122);
      (0x1B150, 0x1B152); (0x1B164, 0x1B167); (0x1B170, 0x1B2FB);
      (0x1F004, 0x1F004); (0x1F0CF, 0x1F0CF); (0x1F18E, 0x1F18E);
      (0x1F191, 0x1F19A); (0x1F200, 0x1F202); (0x1F210, 0x1F23B);
      (0x1F240, 0x1F248); (0x1F250, 0x1F251); (0x1F260, 0x1F265);
      (0x1F300, 0x1F320); (0x1F32D, 0x1F335); (0x1F337, 0x1F37C);
      (0x1F37E, 0x1F393); (0x1F3A0, 0x1F3CA); (0x1F3CF, 0x1F3D3);
      (0x1F3E0, 0x1F3F0); (0x1F3F4, 0x1F3F4); (0x1F3F8, 0x1F43E);
      (0x1F440, 0x1F440); (0x1F442, 0x1F4FC); (0x1F4FF, 0x1F53D);
      (0x1F54B, 0x1F54E); (0x1F550, 0x1F567); (0x1F57A, 0x1F57A);
      (0x1F595, 0x1F596); (0x1F5A4, 0x1F5A4); (0x1F5FB, 0x1F64F);
      (0x1F680, 0x1F6C5); (0x1F6CC, 0x1F6CC); (0x1F6D0, 0x1F6D2);
      (0x1F6D5, 0x1F6D7); (0x1F6DD, 0x1F6DF); (0x1F6EB, 0x1F6EC);
      (0x1F6F4, 0x1F6FC); (0x1F7E0, 0x1F7EB); (0x1F7F0, 0x1F7F0);
      (0x1F90C, 0x1F93A); (0x1F93C, 0x1F945); (0x1F947, 0x1F9FF);
      (0x1FA70, 0x1FA74); (0x1FA78, 0x1FA7C); (0x1FA80, 0x1FA86);
      (0x1FA90, 0x1FAAC); (0x1FAB0, 0x1FABA); (0x1FAC0, 0x1FAC5);
      (0x1FAD0, 0x1FAD9); (0x1FAE0, 0x1FAE7); (0x1FAF0, 0x1FAF6);
      (0x20000, 0x2A6DF); (0x2A700, 0x2B738); (0x2B740, 0x2B81D);
      (0x2B820, 0x2CEA1); (0x2CEB0, 0x2EBE0); (0x2F800, 0x2FA1D);
      (0x30000, 0x3134A) ].

(** Modelled from the spec: the assigned code points of Unicode 14.0.0
    whose East Asian Width is Ambiguous. *)
Definition eastAsianAmbiguous : table :=
    [ (0x00A1, 0x00A1); (0x00A4, 0x00A4); (0x00A7, 0x00A8);
      (0x00AA, 0x00AA); (0x00AD, 0x00AE); (0x00B0, 0x00B4);
      (0x00B6, 0x00BA); (0x00BC, 0x00BF); (0x00C6, 0x00C6);
      (0x00D0, 0x00D0); (0x00D7, 0x00D8); (0x00DE, 0x00E1);
      (0x00E6, 0x00E6); (0x00E8, 0x00EA); (0x00EC, 0x00ED);
      (0x00F0, 0x00F0); (0x00F2, 0x00F3); (0x00F7, 0x00FA);
      (0x00FC, 0x00FC); (0x00FE, 0x00FE); (0x0101, 0x0101);
      (0x0111, 0x0111); (0x0113, 0x0113); (0x011B, 0x011B);
      (0x0126, 0x0127); (0x012B, 0x012B); (0x0131, 0x0133);
      (0x0138, 0x0138); (0x013F, 0x0142); (0x0144, 0x0144);
      (0x0148, 0x014B); (0x014D, 0x014D); (0x0152, 0x0153);
      (0x0166, 0x0167); (0x016B, 0x016B); (0x01CE, 0x01CE);
      (0x01D0, 0x01D0); (0x01D2, 0x01D2); (0x01D4, 0x01D4);
      (0x01D6, 0x01D6); (0x01D8, 0x01D8); (0x01DA, 0x01DA);
      (0x01DC, 0x01DC); (0x0251, 0x0251); (0x0261, 0x0261);
      (0x02C4, 0x02C4); (0x02C7, 0x02C7); (0x02C9, 0x02CB);
      (0x02CD, 0x02CD); (0x02D0, 0x02D0); (0x02D8, 0x02DB);
      (0x02DD, 0x02DD); (0x02DF, 0x02DF); (0x0300, 0x036F);
      (0x0391, 0x03A1); (0x03A3, 0x03A9); (0x03B1, 0x03C1);
      (0x03C3, 0x03C9); (0x0401, 0x0401); (0x0410, 0x044F);
      (0x0451, 0x0451); (0x2010, 0x2010); (0x2013, 0x2016);
      (0x2018, 0x2019); (0x201C, 0x201D); (0x2020, 0x2022);
      (0x2024, 0x2027); (0x2030, 0x2030); (0x2032, 0x2033);
      (0x2035, 0x2035); (0x203B, 0x203B); (0x203E, 0x203E);
      (0x2074, 0x2074); (0x207F, 0x207F); (0x2081, 0x2084);
      (0x20AC, 0x20AC); (0x2103, 0x2103); (0x2105, 0x2105);
      (0x2109, 0x2109); (0x2113, 0x2113); (0x2116, 0x2116);
      (0x2121, 0x2122); (0x2126, 0x2126); (0x212B, 0x212B);
      (0x2153, 0x2154); (0x215B, 0x215E); (0x2160, 0x216B);
      (0x2170, 0x2179); (0x2189, 0x2189); (0x2190, 0x2199);
      (0x21B8, 0x21B9); (0x21D2, 0x21D2); (0x21D4, 0x21D4);
      (0x21E7, 0x21E7); (0x2200, 0x2200); (0x2202, 0x2203);
      (0x2207, 0x2208); (0x220B, 0x220B); (0x220F, 0x220F);
      (0x2211, 0x2211); (0x2215, 0x2215); (0x221A, 0x221A);
      (0x221D, 0x2220); (0x2223, 0x2223); (0x2225, 0x2225);
      (0x2227, 0x222C); (0x222E, 0x222E); (0x2234, 0x2237);
      (0x223C, 0x223D); (0x2248, 0x2248); (0x224C, 0x224C);
      (0x2252, 0x2252); (0x2260, 0x2261); (0x2264, 0x2267);
      (0x226A, 0x226B); (0x226E, 0x226F); (0x2282, 0x2283);
      (0x2286, 0x2287); (0x2295, 0x2295); (0x2299, 0x2299);
      (0x22A5, 0x22A5); (0x22BF, 0x22BF); (0x2312, 0x2312);
      (0x2460, 0x24E9); (0x24EB, 0x254B); (0x2550, 0x2573);
      (0x2580, 0x258F); (0x2592, 0x2595); (0x25A0, 0x25A1);
      (0x25A3, 0x25A9); (0x25B2, 0x25B3); (0x25B6, 0x25B7);
      (0x25BC, 0x25BD); (0x25C0, 0x25C1); (0x25C6, 0x25C8);
      (0x25CB, 0x25CB); (0x25CE, 0x25D1); (0x25E2, 0x25E5);
      (0x25EF, 0x25EF); (0x2605, 0x2606); (0x2609, 0x2609);
      (0x260E, 0x260F); (0x261C, 0x261C); (0x261E, 0x261E);
      (0x2640, 0x2640); (0x2642, 0x2642); (0x2660, 0x2661);
      (0x2663, 0x2665); (0x2667, 0x266A); (0x266C, 0x266D);
      (0x266F, 0x266F); (0x269E, 0x269F); (0x26BF, 0x26BF);
      (0x26C6, 0x26CD); (0x26CF, 0x26D3); (0x26D5, 0x26E1);
      (0x26E3, 0x26E3); (0x26E8, 0x26E9); (0x26EB, 0x26F1);
      (0x26F4, 0x26F4); (0x26F6, 0x26F9); (0x26FB, 0x26FC);
      (0x26FE, 0x26FF); (0x273D, 0x273D); (0x2776, 0x277F);
      (0x2B56, 0x2B59); (0x3248, 0x324F); (0xE000, 0xF8FF);
      (0xFE00, 0xFE0F); (0xFFFD, 0xFFFD); (0x1F100, 0x1F10A);
      (0x1F110, 0x1F12D); (0x1F130, 0x1F169); (0x1F170, 0x1F18D);
      (0x1F18F, 0x1F190); (0x1F19B, 0x1F1AC); (0xE0100, 0xE01EF);
      (0xF0000, 0xFFFFD); (0x100000, 0x10FFFD) ].

(** Modelled from the spec: the pinned width table. *)
Definition unicode : WidthTable := {|
  combining := combiningMarks;
  zeroFormat := controlAndFormat;
  wide := eastAsianWide;
  ambiguous := eastAsianAmbiguous
|}.

(** Whether a table has a range that covers [lo .. hi]. *)
Definition covers (t : table) (lo hi : Z) : bool :=
  existsb (fun iv => (fst iv <=? lo) && (hi <=? snd iv)) t.

(** The public surface: default ambiguous-width mode narrow. *)
Definition RuneWidth (r : Z) : Z := RuneWidthIn unicode false r.
Definition StringWidth (s : bytes) : Z := StringWidthIn unicode false s.

(** The inputs of [TestZeroWidthJoiner], as UTF-8 bytes. *)
Definition woman : bytes := [0xF0; 0x9F; 0x91; 0xA9].     (* U+1F469 *)
Definition man : bytes := [0xF0; 0x9F; 0x91; 0xA8].       (* U+1F468 *)
Definition girl : bytes := [0xF0; 0x9F; 0x91; 0xA7].      (* U+1F467 *)
Definition cooking : bytes := [0xF0; 0x9F; 0x8D; 0xB3].   (* U+1F373 *)
Definition zwj : bytes := [0xE2; 0x80; 0x8D].             (* U+200D *)
Definition whiteFlag : bytes := [0xF0; 0x9F; 0x8F; 0xB3]. (* U+1F3F3 *)
Definition vs16 : bytes := [0xEF; 0xB8; 0x8F].            (* U+FE0F *)
Definition rainbow : bytes := [0xF0; 0x9F; 0x8C; 0x88].   (* U+1F308 *)
Definition hiraganaA : bytes := [0xE3; 0x81; 0x82].       (* U+3042 *)
Definition hiraganaI : bytes := [0xE3; 0x81; 0x84].       (* U+3044 *)

(** The table of [TestRuneWidth]: a rune and its expected width. *)
Definition runewidthtests : list (Z * Z) :=
  [ (0x4E16, 2); (0x754C, 2); (0xFF7E, 1); (0xFF76, 1); (0xFF72, 1);
    (0x2606, 1); (0x263A, 1); (0x263B, 1); (0x2665, 1); (0x2666, 1);
    (0x2663, 1); (0x2660, 1); (0x2642, 1); (0x2640, 1); (0x266A, 1);
    (0x266B, 1); (0x263C, 1); (0x2195, 1); (0x203C, 1); (0x2194, 1);
    (0x0000, 0); (0x0001, 0); (0x0300, 0); (0x2028, 0); (0x2029, 0);
    (0x0061, 1); (0x27E6, 1); (0x1F441, 1); (0x0301, 0); (0x0061, 1);
    (0x03A9, 1); (0x597D, 2); (0x304B, 2) ].

(** The table of [TestStringWidth]: input, width, east-Asian width. *)
Definition stringwidthtests : list (bytes * Z * Z) :=
  [ ([0xE2; 0x96; 0xA0; 0xE3; 0x88; 0xB1; 0xE3; 0x81; 0xAE; 0xE4; 0xB8; 0x96;
      0xE7; 0x95; 0x8C; 0xE2; 0x91; 0xA0], 10, 12);
    ([0xE3; 0x82; 0xB9; 0xE3; 0x82; 0xBF; 0xE3; 0x83; 0xBC; 0xE2; 0x98; 0x86],
     7, 8);
    ([0xE3; 0x81; 0xA4; 0xE3; 0x81; 0xAE; 0xE3; 0x81; 0xA0; 0xE2; 0x98; 0x86;
      0x48; 0x49; 0x52; 0x4F], 11, 12) ].

(** The table of [TestZeroWidthJoiner]: input and expected width. *)
Definition zwjtests : list (bytes * Z) :=
  [ (woman, 2);
    (woman ++ zwj, 2);
    (woman ++ zwj ++ cooking, 4);
    (zwj ++ cooking, 2);
    (man ++ zwj ++ man, 4);
    (man ++ zwj ++ man ++ zwj ++ girl, 6);
    (whiteFlag ++ vs16 ++ zwj ++ rainbow, 3);
    (hiraganaA ++ woman ++ zwj ++ cooking ++ hiraganaI, 8);
    (hiraganaA ++ zwj ++ cooking ++ hiraganaI, 6);
    (hiraganaA ++ zwj ++ hiraganaI, 4);
    (str "abc", 3);
    ([0xE4; 0xBD; 0xA0; 0xE5; 0xA5; 0xBD], 4) ].

End wcwidth.

(* ================================================================== *)
(** * vt: the damage model ([vt/damage.go]) *)

Module vt.

(** The geometry module is a companion of the damage model: the type
    [Rectangle], its constructor [Rect(x, y, w, h)] and its accessors are
    taken as given. *)
Class Geometry := {
  Rectangle : Type;
  Rect : Z -> Z -> Z -> Z -> Rectangle;
  RectangleX : Rectangle -> Z;
  RectangleY : Rectangle -> Z;
  RectangleWidth : Rectangle -> Z;
  RectangleHeight : Rectangle -> Z
}.

(** Modelled from the spec: a rectangle is a top-left corner (x, y) with a
    width and a height.  The claims of this file hold for every
    [Geometry]; this one gives the accessors a meaning. *)
Record rectangle := { rx : Z; ry : Z; rwidth : Z; rheight : Z }.

Definition specGeometry : Geometry := {|
  Rectangle := rectangle;
  Rect := fun x y w h => {| rx := x; ry := y; rwidth := w; rheight := h |};
  RectangleX := rx;
  RectangleY := ry;
  RectangleWidth := rwidth;
  RectangleHeight := rheight
|}.

(** [Position]: an x, y position. *)
Record Position := { X : Z; Y : Z }.

(** [type ScreenDamage struct { Width, Height int }] *)
Record ScreenDamageT := { Width : Z; Height : Z }.

(** The three implementations of the [Damage] interface:
    [type CellDamage Position], [type RectDamage Rectangle] and
    [ScreenDamage]. *)
Inductive Damage `{Geometry} :=
| CellDamage (d : Position)
| RectDamage (d : Rectangle)
| ScreenDamage (d : ScreenDamageT).

(** [Bounds()], one method per implementation. *)
Definition Bounds `{Geometry} (d : Damage) : Rectangle :=
  match d with
  | CellDamage d => Rect (X d) (Y d) 1 1
  | RectDamage d => d
  | ScreenDamage d => Rect 0 0 (Width d) (Height d)
  end.

(** [RectDamage.X()], [.Y()], [.Width()], [.Height()] *)
Definition RectDamage_X `{Geometry} (d : Rectangle) : Z := RectangleX d.
Definition RectDamage_Y `{Geometry} (d : Rectangle) : Z := RectangleY d.
Definition RectDamage_Width `{Geometry} (d : Rectangle) : Z := RectangleWidth d.
Definition RectDamage_Height `{Geometry} (d : Rectangle) : Z := RectangleHeight d.

End vt.

(* ================================================================== *)
(** * ansi: what the wrapper uses of the escape-sequence package *)

Module ansi.

(** Modelled from the spec: [ansi.HasCsiPrefix] is not among the sources at
    hand.  An attribute-setting sequence is a control sequence; it opens
    with ESC [ or with the 8-bit introducer 0x9B (both forms occur in the
    [cases] table of the string-width test). *)
Definition HasCsiPrefix (b : bytes) : bool :=
  match b with
  | c0 :: rest =>
    (c0 =? 0x9B) ||
    match rest with
    | c1 :: _ => (c0 =? ESC) && (c1 =? 0x5B)
    | [] => false
    end
  | [] => false
  end.

(** Modelled from the spec: [ansi.HasOscPrefix] is not among the sources at
    hand.  A hyperlink-setting sequence is an operating system command; it
    opens with ESC ] or with the 8-bit introducer 0x9D. *)
Definition HasOscPrefix (b : bytes) : bool :=
  match b with
  | c0 :: rest =>
    (c0 =? 0x9D) ||
    match rest with
    | c1 :: _ => (c0 =? ESC) && (c1 =? 0x5D)
    | [] => false
    end
  | [] => false
  end.

(** The external collaborators of the wrapper (spec, section 6): the
    sequence decoder with its parser, the attribute parser and the
    hyperlink parser, and the [Style] and [Link] values of package
    [cellbuf], which are declared outside [wrap.go]. *)
Class Collaborators := {
  (** [*ansi.Parser], as [ansi.GetParser()] hands it out *)
  Parser : Type;
  GetParser : Parser;
  (** [Method.DecodeSequenceInString(b, state, p)] returns
      [(seq, width, n, newState)] and leaves its findings in [p] *)
  DecodeSequenceInString :
    bytes -> byte -> Parser -> (bytes * Z * nat * byte) * Parser;
  Command : Parser -> Z;
  ParamsT : Type;
  Params : Parser -> ParamsT;
  Data : Parser -> bytes;
  (** [Style] and [Link] with their zero values *)
  Style : Type;
  Link : Type;
  zeroStyle : Style;
  zeroLink : Link;
  ReadStyle : ParamsT -> Style -> Style;
  ReadLink : bytes -> Link -> Link;
  Style_Empty : Style -> bool;
  Style_Sequence : Style -> bytes;
  Link_Empty : Link -> bool;
  Link_URL : Link -> bytes;
  Link_Params : Link -> bytes;
  SetHyperlink : bytes -> bytes -> bytes;
  ResetHyperlink : bytes;
  ResetStyle : bytes
}.

(** The decoder's guarantee of forward progress (spec, section 6): a call
    on a non-empty input consumes at least one byte, and no more than there
    are. *)
Definition progress `{Collaborators} : Prop :=
  forall b state p, b <> [] ->
    let n := snd (fst (fst (DecodeSequenceInString b state p))) in
    (1 <= n <= length b)%nat.

End ansi.

(* ================================================================== *)
(** * cellbuf: the escape-aware wrapper ([cellbuf/wrap.go]) *)

Module cellbuf.
Import ansi.

Section Wrapper.
Context `{Collaborators}.

(** [StyleFormatter].  The decode [Method] is the [Collaborators]
    instance; [Forward] is not used by [Wrap]. *)
Record StyleFormatter := {
  Limit : Z;
  Style0 : Style;
  Link0 : Link;
  PreserveSpace : bool;
  Breakpoints : list Z
}.

(** The variables of one [Wrap] call: the three buffers, the two
    counters, and the running [s.Style] and [s.Link] of the receiver, which
    is a copy of the formatter. *)
Record state := mkState {
  buf : bytes;
  word : bytes;
  space : bytes;
  curWidth : Z;
  wordLen : Z;
  sStyle : Style;
  sLink : Link
}.

(** [addSpace] *)
Definition addSpace (st : state) : state :=
  mkState (buf st ++ space st) (word st) []
          (curWidth st + len (space st)) (wordLen st) (sStyle st) (sLink st).

(** [addWord] *)
Definition addWord (st : state) : state :=
  if len (word st) =? 0 then st
  else
    let st := addSpace st in
    mkState (buf st ++ word st) [] (space st)
            (curWidth st + wordLen st) 0 (sStyle st) (sLink st).

(** What [addNewline] writes before and after the line feed. *)
Definition resetSeq (sty : Style) (lnk : Link) : bytes :=
  (if negb (Link_Empty lnk) then ResetHyperlink else []) ++
  (if negb (Style_Empty sty) then ResetStyle else []).

Definition reapplySeq (sty : Style) (lnk : Link) : bytes :=
  (if negb (Style_Empty sty) then Style_Sequence sty else []) ++
  (if negb (Link_Empty lnk)
   then SetHyperlink (Link_URL lnk) (Link_Params lnk) else []).

(** [addNewline] *)
Definition addNewline (st : state) : state :=
  mkState (buf st ++ resetSeq (sStyle st) (sLink st) ++ [LF]
             ++ reapplySeq (sStyle st) (sLink st))
          (word st) [] 0 (wordLen st) (sStyle st) (sLink st).

(** [addBreak] *)
Definition addBreak (limit : Z) (seq : bytes) (width : Z) (st : state) : state :=
  let st := addSpace st in
  if curWidth st + wordLen st + width >=? limit then
    mkState (buf st) (word st ++ seq) (space st)
            (curWidth st) (wordLen st + width) (sStyle st) (sLink st)
  else
    let st := addWord st in
    mkState (buf st ++ seq) (word st) (space st)
            (curWidth st + width) (wordLen st) (sStyle st) (sLink st).

(** [runeContainsAny] *)
Definition runeContainsAny (r : Z) (s : list Z) : bool :=
  existsb (fun c => c =? r) s.

(** The block at a line feed (lines 151-159), written a second time after
    the loop (lines 206-214). *)
Definition lineFeedSpace (limit : Z) (st : state) : state :=
  if wordLen st =? 0 then
    if curWidth st + len (space st) >? limit then
      mkState (buf st) (word st) [] 0 (wordLen st) (sStyle st) (sLink st)
    else
      mkState (buf st ++ space st) (word st) []
              (curWidth st) (wordLen st) (sStyle st) (sLink st)
  else st.

Definition appendWord (seq : bytes) (st : state) : state :=
  mkState (buf st) (word st ++ seq) (space st)
          (curWidth st) (wordLen st) (sStyle st) (sLink st).

(** [case 0]: control codes and escape sequences. *)
Definition control (sf : StyleFormatter) (p : Parser) (seq : bytes)
    (st : state) : state :=
  let st :=
    if HasCsiPrefix seq && (Command p =? 0x6D) then
      mkState (buf st) (word st) (space st) (curWidth st) (wordLen st)
              (ReadStyle (Params p) (sStyle st)) (sLink st)
    else if HasOscPrefix seq && (Command p =? 8) then
      mkState (buf st) (word st) (space st) (curWidth st) (wordLen st)
              (sStyle st) (ReadLink (Data p) (sLink st))
    else if (len seq =? 1) && (nth 0 seq 0 =? LF) then
      addNewline (addWord (lineFeedSpace (Limit sf) st))
    else st in
  appendWord seq st.

(** The white-space case of [default]. *)
Definition whitespace (sf : StyleFormatter) (seq : bytes) (st : state) : state :=
  let st := addWord st in
  if PreserveSpace sf || negb (curWidth st =? 0) then
    mkState (buf st) (word st) (space st ++ seq)
            (curWidth st) (wordLen st) (sStyle st) (sLink st)
  else st.

(** The last case of [default] (lines 184-199): an ordinary glyph. *)
Definition ordinary (limit : Z) (seq : bytes) (width : Z) (st : state) : state :=
  let st := if curWidth st >? limit then addNewline st else st in
  let st := if wordLen st + width >=? limit then addWord st else st in
  let st := mkState (buf st) (word st ++ seq) (space st)
                    (curWidth st) (wordLen st + width) (sStyle st) (sLink st) in
  if curWidth st + wordLen st + len (space st) >? limit
  then addNewline st else st.

(** One round of the loop, after the decoder has returned [seq] and
    [width] and updated the parser to [p]. *)
Definition process (sf : StyleFormatter) (p : Parser) (seq : bytes)
    (width : Z) (st : state) : state :=
  if width =? 0 then control sf p seq st
  else if TrimSpace_empty seq then whitespace sf seq st
  else if (len seq =? 1) && (nth 0 seq 0 =? 0x2D) then
    addBreak (Limit sf) seq width st
  else if (utf8.RuneCountInString seq =? 1)
          && runeContainsAny (fst (utf8.DecodeRune seq)) (Breakpoints sf) then
    addBreak (Limit sf) seq width st
  else ordinary (Limit sf) seq width st.

(** [for len(b) > 0 { ...; b = b[n:] }].  The result is [None] when the
    slice [b[n:]] is out of range (Go panics) or when [fuel] rounds did not
    reach the end of the input (a decoder that consumes nothing loops for
    ever). *)
Fixpoint loop (fuel : nat) (sf : StyleFormatter) (b : bytes) (state0 : byte)
    (p : Parser) (st : state) : option state :=
  match b with
  | [] => Some st
  | _ :: _ =>
    match fuel with
    | O => None
    | S fuel' =>
      let '(seq, width, n, newState, p') := DecodeSequenceInString b state0 p in
      if (n <=? length b)%nat
      then loop fuel' sf (skipn n b) newState p' (process sf p' seq width st)
      else None
    end
  end.

(** After the loop (lines 206-218). *)
Definition finish (limit : Z) (st : state) : bytes :=
  buf (addWord (
    if wordLen st =? 0 then
      if curWidth st + len (space st) >? limit then
        mkState (buf st) (word st) [] 0 (wordLen st) (sStyle st) (sLink st)
      else
        mkState (buf st ++ space st) (word st) []
                (curWidth st) (wordLen st) (sStyle st) (sLink st)
    else st)).

Definition initial (sf : StyleFormatter) : state :=
  mkState [] [] [] 0 0 (Style0 sf) (Link0 sf).

(** [func (s StyleFormatter) Wrap(b string) string] *)
Definition StyleFormatter_Wrap (sf : StyleFormatter) (b : bytes) : option bytes :=
  if len b =? 0 then Some []
  else if Limit sf <? 1 then Some b
  else option_map (finish (Limit sf))
         (loop (length b) sf b 0 GetParser (initial sf)).

(** [func Wrap(s string, limit int, breakpoints string) string] *)
Definition Wrap (s : bytes) (limit : Z) (breakpoints : bytes) : option bytes :=
  StyleFormatter_Wrap
    {| Limit := limit; Style0 := zeroStyle; Link0 := zeroLink;
       PreserveSpace := false; Breakpoints := utf8.runes breakpoints |} s.

(** The tokens the decoder cuts the input into, in the rounds of [loop]. *)
Fixpoint tokens (fuel : nat) (b : bytes) (state0 : byte) (p : Parser)
    : list (bytes * Z) :=
  match b, fuel with
  | _ :: _, S fuel' =>
    let '(seq, width, n, newState, p') := DecodeSequenceInString b state0 p in
    (seq, width) :: tokens fuel' (skipn n b) newState p'
  | _, _ => []
  end.

(** A reading of an output against the token stream of its input: a token
    is kept whole, or left out, or a line break is put in between two
    tokens, with the reset and reapplication sequences of some
    [Style]/[Link] around the line feed. *)
Inductive item :=
| Keep (t : bytes * Z)
| Drop (t : bytes * Z)
| Break (sty : Style) (lnk : Link).

Definition item_out (i : item) : bytes :=
  match i with
  | Keep t => fst t
  | Drop _ => []
  | Break sty lnk => resetSeq sty lnk ++ [LF] ++ reapplySeq sty lnk
  end.

Definition item_in (i : item) : list (bytes * Z) :=
  match i with
  | Keep t | Drop t => [t]
  | Break _ _ => []
  end.

Definition out_of (l : list item) : bytes := flat_map item_out l.
Definition in_of (l : list item) : list (bytes * Z) := flat_map item_in l.

(** A token is white space when the wrapper takes it for such: displayable
    and made of white space only. *)
Definition isSpaceToken (t : bytes * Z) : bool :=
  negb (snd t =? 0) && TrimSpace_empty (fst t).

Definition dropsSpaceOnly (i : item) : Prop :=
  match i with
  | Drop t => isSpaceToken t = true
  | _ => True
  end.

(** What may sit in the space buffer: white-space tokens, and tokens
    without text; never a line break. *)
Definition okSpace (i : item) : Prop :=
  match i with
  | Keep t => isSpaceToken t = true \/ fst t = []
  | Drop t => isSpaceToken t = true
  | Break _ _ => False
  end.

(** What may sit in the word buffer: tokens, whole. *)
Definition okWord (i : item) : Prop :=
  match i with
  | Keep _ => True
  | _ => False
  end.

(** A pending space that is discarded: its white-space tokens are left
    out. *)
Definition hide (i : item) : item :=
  match i with
  | Keep t => if isSpaceToken t then Drop t else Keep t
  | _ => i
  end.

(** The three buffers read against the tokens consumed so far: the output
    first, then the pending space, then the pending word. *)
Definition reads (consumed : list (bytes * Z)) (b sp w : bytes) : Prop :=
  exists ib isp iw,
    b = out_of ib /\ sp = out_of isp /\ w = out_of iw /\
    in_of (ib ++ isp ++ iw) = consumed /\
    Forall dropsSpaceOnly ib /\ Forall okSpace isp /\ Forall okWord iw.

(** The buffers of a state read against the tokens consumed so far. *)
Definition readsSt (consumed : list (bytes * Z)) (st : state) : Prop :=
  reads consumed (buf st) (space st) (word st).

(** What a displayable token adds to the projected width of the line:
    its width, or, for white space, the length of its text, which is what
    the space buffer is measured by. *)
Definition columns (t : bytes * Z) : Z :=
  if isSpaceToken t then len (fst t) else snd t.

(** The text of a token stream. *)
Definition textOf (l : list (bytes * Z)) : bytes := flat_map fst l.

(** The state of a run that has stayed on one line so far: the three
    buffers hold the text consumed, in order; the three counters add up to
    its columns; the word buffer is empty exactly when the word width is 0;
    and, unless leading space is preserved, something displayable has been
    taken once a token has been consumed. *)
Definition onOneLine (sf : StyleFormatter) (consumed : list (bytes * Z))
    (st : state) : Prop :=
  buf st ++ space st ++ word st = textOf consumed /\
  curWidth st + wordLen st + len (space st)
  = fold_right Z.add 0 (map columns consumed) /\
  0 <= curWidth st /\ 0 <= wordLen st /\
  (word st = [] <-> wordLen st = 0) /\
  (PreserveSpace sf = true \/ consumed = [] \/ 0 < curWidth st + wordLen st).

End Wrapper.
End cellbuf.

(* ================================================================== *)
(** * A reference model of the collaborators *)

Module model.

(** Modelled from the spec: what the sequence decoder leaves in the
    parser (package [ansi], not among the sources at hand): the command,
    the numeric parameters and the data payload of the last sequence. *)
Record parser := { cmd : Z; params : list Z; data : bytes }.

(** The bytes of a control sequence after its introducer, up to and
    including the final byte (0x40-0x7E); parameter and intermediate bytes
    (0x20-0x3F) come before it. *)
Fixpoint csiLength (b : bytes) : option nat :=
  match b with
  | [] => None
  | c :: r =>
    if between 0x40 0x7E c then Some 1%nat
    else if between 0x20 0x3F c then option_map S (csiLength r)
    else None
  end.

(** The payload of an operating system command and the length of its
    terminator, BEL or ESC \. *)
Fixpoint oscScan (b : bytes) : option (nat * nat) :=
  match b with
  | [] => None
  | c :: r =>
    if c =? BEL then Some (0%nat, 1%nat)
    else if c =? ESC then
      match r with
      | c1 :: _ => if c1 =? 0x5C then Some (0%nat, 2%nat) else None
      | [] => None
      end
    else option_map (fun kt => (S (fst kt), snd kt)) (oscScan r)
  end.

(** [bytes.Split(b, sep)] for a one-byte separator. *)
Fixpoint split (sep : byte) (b : bytes) : list bytes :=
  match b with
  | [] => [[]]
  | c :: r =>
    if c =? sep then [] :: split sep r
    else match split sep r with
         | h :: t => (c :: h) :: t
         | [] => [[c]]
         end
  end.

(** A run of decimal digits as a number; anything else counts as 0. *)
Definition number (b : bytes) : Z :=
  fold_left (fun n c => if between 0x30 0x39 c then 10 * n + (c - 0x30) else n) b 0.

Definition parseParams (body : bytes) : list Z :=
  match body with
  | [] => []
  | _ => map number (split 0x3B body)
  end.

(** Modelled from the spec: the sequence decoder (package [ansi], not
    among the sources at hand).  Given the remaining input and a parser
    state it returns the consumed raw text, its display width, the number
    of consumed bytes and the next state; width 0 marks control and escape
    data; at least one byte is consumed per call.  The model covers
    printable ASCII (one column each), C0 controls and DEL, complete
    control sequences (ESC [ ... final) and operating system commands
    (ESC ] ... BEL or ESC \), and other runes one at a time with their
    table width; an escape it does not complete is consumed one byte at a
    time.  It is always in the ground state 0. *)
Definition decode (b : bytes) (state0 : byte) (p : parser)
    : (bytes * Z * nat * byte) * parser :=
  match b with
  | [] => (([], 0, 0%nat, 0), p)
  | c :: rest =>
    let single := (([c], 0, 1%nat, 0), p) in
    if c =? ESC then
      match rest with
      | c1 :: body =>
        if c1 =? 0x5B then
          match csiLength body with
          | Some k =>
            ((firstn (2 + k) b, 0, (2 + k)%nat, 0),
             {| cmd := nth (k - 1) body 0;
                params := parseParams (firstn (k - 1) body);
                data := [] |})
          | None => single
          end
        else if c1 =? 0x5D then
          match oscScan body with
          | Some (k, t) =>
            ((firstn (2 + k + t) b, 0, (2 + k + t)%nat, 0),
             {| cmd := number (hd [] (split 0x3B (firstn k body)));
                params := [];
                data := firstn k body |})
          | None => single
          end
        else single
      | [] => single
      end
    else if between 0x20 0x7E c then (([c], 1, 1%nat, 0), p)
    else if c <? 0x80 then single
    else
      let '(r, n) := utf8.DecodeRune b in
      ((firstn n b, wcwidth.RuneWidth r, n, 0), p)
  end.

(** Modelled from the spec: [Style], the active text attributes gathered
    from attribute-setting sequences (declared in package [cellbuf] outside
    [wrap.go]).  The model keeps the list of the attribute codes in force;
    code 0, or no code at all, resets it.  Its canonical sequence is
    ESC [ codes m and the fixed reset is ESC [ m. *)
Definition style := list Z.

Definition readStyle (ps : list Z) (sty : style) : style :=
  match ps with
  | [] => []
  | _ => fold_left (fun s p => if p =? 0 then [] else s ++ [p]) ps sty
  end.

Definition decimal (n : Z) : bytes :=
  str (NilZero.string_of_uint (N.to_uint (Z.to_N n))).

Fixpoint joinParams (ps : list Z) : bytes :=
  match ps with
  | [] => []
  | [p] => decimal p
  | p :: rest => decimal p ++ [0x3B] ++ joinParams rest
  end.

Definition styleSequence (sty : style) : bytes :=
  [ESC; 0x5B] ++ joinParams sty ++ [0x6D].

(** Modelled from the spec: [Link], the active hyperlink: URL and
    parameters (declared in package [cellbuf] outside [wrap.go]); it is
    empty when both are.  The hyperlink parser reads the payload
    [8;params;url]. *)
Record link := { URL : bytes; LinkParams : bytes }.

Definition readLink (d : bytes) (l : link) : link :=
  match split 0x3B d with
  | [_; ps; url] => {| URL := url; LinkParams := ps |}
  | _ => l
  end.

Definition linkEmpty (l : link) : bool :=
  (len (URL l) =? 0) && (len (LinkParams l) =? 0).

Definition setHyperlink (url ps : bytes) : bytes :=
  [ESC; 0x5D; 0x38; 0x3B] ++ ps ++ [0x3B] ++ url ++ [BEL].

#[export] Instance collaborators : ansi.Collaborators := {|
  ansi.Parser := parser;
  ansi.GetParser := {| cmd := 0; params := []; data := [] |};
  ansi.DecodeSequenceInString := decode;
  ansi.Command := cmd;
  ansi.ParamsT := list Z;
  ansi.Params := params;
  ansi.Data := data;
  ansi.Style := style;
  ansi.Link := link;
  ansi.zeroStyle := [];
  ansi.zeroLink := {| URL := []; LinkParams := [] |};
  ansi.ReadStyle := readStyle;
  ansi.ReadLink := readLink;
  ansi.Style_Empty := fun sty => len sty =? 0;
  ansi.Style_Sequence := styleSequence;
  ansi.Link_Empty := linkEmpty;
  ansi.Link_URL := URL;
  ansi.Link_Params := LinkParams;
  ansi.SetHyperlink := setHyperlink;
  ansi.ResetHyperlink := setHyperlink [] [];
  ansi.ResetStyle := [ESC; 0x5B; 0x6D]
|}.

(** [Wrap] with the reference collaborators. *)
Definition Wrap : bytes -> Z -> bytes -> option bytes := cellbuf.Wrap.

End model.

(* ================================================================== *)
(** * The steps as the specification words them *)

Module claimed.
Import ansi cellbuf.

Section Claimed.
Context `{Collaborators}.

(** The output after a line break as the specification words it: the line
    break first, then the reset of the open style and link, then their
    reapplication. *)
Definition addNewline_claimed (st : state) : bytes :=
  buf st ++ [LF] ++ resetSeq (sStyle st) (sLink st)
         ++ reapplySeq (sStyle st) (sLink st).

(** The breakpoint step as the specification words it: the pending space
    is flushed; a breakpoint that fits (line width + word width +
    breakpoint width < limit) is appended to the current word; otherwise
    the word is flushed as it is and a fresh word starts with the
    breakpoint. *)
Definition addBreak_claimed (limit : Z) (seq : bytes) (width : Z)
    (st : state) : state :=
  let st := addSpace st in
  if curWidth st + wordLen st + width <? limit then
    mkState (buf st) (word st ++ seq) (space st)
            (curWidth st) (wordLen st + width) (sStyle st) (sLink st)
  else
    let st := addWord st in
    mkState (buf st) seq (space st)
            (curWidth st) width (sStyle st) (sLink st).

End Claimed.

(** The lines of a text: what lies between its line feeds. *)
Definition lines (b : bytes) : list bytes := model.split LF b.

(** Whether a text holds two line feeds in a row. *)
Fixpoint twoLineFeeds (b : bytes) : bool :=
  match b with
  | c0 :: rest =>
    match rest with
    | c1 :: _ => ((c0 =? LF) && (c1 =? LF)) || twoLineFeeds rest
    | [] => false
    end
  | [] => false
  end.

(** [Wrap] applied to its own output, at the same limit and breakpoints. *)
Definition rewrap (s : bytes) (limit : Z) (breakpoints : bytes) : option bytes :=
  match model.Wrap s limit breakpoints with
  | Some out => model.Wrap out limit breakpoints
  | None => None
  end.

End claimed.

(* ================================================================== *)
(** * Facts: UTF-8 decoding *)

Module utf8_facts.
Import utf8.

Lemma DecodeRune_size (b : bytes) :
  b <> [] -> (1 <= snd (DecodeRune b) <= length b)%nat.
Proof.
  destruct b as [|b0 r1]; [congruence|]. intros _.
  unfold DecodeRune.
  repeat match goal with
  | |- context [if ?c then _ else _] => destruct c
  | |- context [match ?l with [] => _ | _ :: _ => _ end] => destruct l
  end; simpl; lia.
Qed.

(** More fuel than bytes changes nothing. *)
Lemma runesFrom_enough (fuel : nat) :
  forall b, (length b <= fuel)%nat -> runesFrom fuel b = runes b.
Proof.
  unfold runes.
  induction fuel as [fuel IH] using lt_wf_ind.
  intros b Hle. destruct b as [|c r]; [destruct fuel; reflexivity|].
  destruct fuel as [|fuel]; [cbn [length] in Hle; lia|].
  cbn [runesFrom length] in *.
  pose proof (DecodeRune_size (c :: r) ltac:(congruence)) as Hn.
  destruct (DecodeRune (c :: r)) as [rn n]. cbn [snd length] in Hn.
  assert (Hs : (length (skipn n (c :: r)) <= length r)%nat).
  { rewrite length_skipn. cbn [length]. lia. }
  f_equal.
  rewrite (IH fuel) by lia.
  symmetry. apply (IH (length r)); lia.
Qed.

End utf8_facts.

(* ================================================================== *)
(** * Facts: the width table *)

Module wcwidth_facts.
Import wcwidth.

Lemma fold_widths (f : Z -> Z) (l : list Z) :
  forall acc, fold_left (fun n c => n + f c) l acc = acc + sumZ (map f l).
Proof.
  induction l as [|r l IH]; intros acc; simpl.
  - lia.
  - rewrite IH. unfold sumZ. lia.
Qed.

Lemma sumZ_app (l1 l2 : list Z) : sumZ (l1 ++ l2) = sumZ l1 + sumZ l2.
Proof.
  unfold sumZ. induction l1 as [|x l1 IH]; simpl; [reflexivity|].
  rewrite IH. lia.
Qed.

(** The reference table reproduces every row of the three test tables. *)
Example test_tables_agree :
  forallb (fun t => RuneWidth (fst t) =? snd t) runewidthtests = true /\
  forallb (fun t => (StringWidthIn unicode false (fst (fst t)) =? snd (fst t))
                    && (StringWidthIn unicode true (fst (fst t)) =? snd t))
          stringwidthtests = true /\
  forallb (fun t => StringWidth (fst t) =? snd t) zwjtests = true.
Proof. repeat split; vm_compute; reflexivity. Qed.

Lemma inTable_covers (t : table) (lo hi r : Z) :
  covers t lo hi = true -> lo <= r <= hi -> inTable r t = true.
Proof.
  unfold covers, inTable. rewrite !existsb_exists.
  intros (iv & Hin & Hc) Hr. exists iv. split; [exact Hin|].
  apply andb_true_iff in Hc. destruct Hc as [H1 H2].
  apply Z.leb_le in H1. apply Z.leb_le in H2.
  unfold between. apply andb_true_iff. split; apply Z.leb_le; lia.
Qed.

(** Whatever the table, a rune of its zero classes is 0 wide. *)
Lemma zero_class_width (t : WidthTable) (eastAsian : bool) (r : Z) :
  inTable r (combining t) = true \/ inTable r (zeroFormat t) = true ->
  RuneWidthIn t eastAsian r = 0.
Proof.
  intros [E|E]; unfold RuneWidthIn; rewrite E; rewrite ?orb_true_r;
    reflexivity.
Qed.

Lemma StringWidthIn_sum (t : WidthTable) (eastAsian : bool) (s : bytes) :
  StringWidthIn t eastAsian s
  = sumZ (map (RuneWidthIn t eastAsian) (utf8.runes s)).
Proof. unfold StringWidthIn. rewrite fold_widths. lia. Qed.

(** C7.  [StringWidth] is strictly additive: the width of a string is the
    sum of [RuneWidth] over its decoded runes, whatever the table and the
    mode, and at a rune boundary the width of a concatenation is the sum
    of the widths of its parts, so joined emoji are not clustered.  The
    runes of the zero classes of a table contribute 0; in the pinned table
    these are the zero-width joiner, the variation selectors (U+FE00 to
    U+FE0F and U+E0100 to U+E01EF) and every combining mark (General
    Category Mn, Mc, Me).  Woman + ZWJ + cooking is 4 wide, man + ZWJ +
    man + ZWJ + girl is 6 wide, white flag + VS16 + ZWJ + rainbow is 3
    wide. *)
Theorem StringWidth_additive :
  (forall (t : WidthTable) (eastAsian : bool) (s : bytes),
     StringWidthIn t eastAsian s
     = sumZ (map (RuneWidthIn t eastAsian) (utf8.runes s))) /\
  (forall s, StringWidth s = sumZ (map RuneWidth (utf8.runes s))) /\
  (forall (t : WidthTable) (eastAsian : bool) (a b : bytes),
     utf8.runes (a ++ b) = utf8.runes a ++ utf8.runes b ->
     StringWidthIn t eastAsian (a ++ b)
     = StringWidthIn t eastAsian a + StringWidthIn t eastAsian b) /\
  (forall (t : WidthTable) (eastAsian : bool) (r : Z),
     inTable r (combining t) = true \/ inTable r (zeroFormat t) = true ->
     RuneWidthIn t eastAsian r = 0) /\
  (forall (t : WidthTable) (eastAsian : bool) (s : bytes),
     Forall (fun r => inTable r (combining t) = true \/
                      inTable r (zeroFormat t) = true) (utf8.runes s) ->
     StringWidthIn t eastAsian s = 0) /\
  RuneWidth 0x200D = 0 /\
  (forall r, 0xFE00 <= r <= 0xFE0F \/ 0xE0100 <= r <= 0xE01EF ->
     RuneWidth r = 0) /\
  (forall r, inTable r combiningMarks = true -> RuneWidth r = 0) /\
  (forall r, 0x0300 <= r <= 0x036F \/ 0x0483 <= r <= 0x0489 \/
             0x1AB0 <= r <= 0x1ACE \/ 0x1DC0 <= r <= 0x1DFF \/
             0x20D0 <= r <= 0x20F0 \/ 0x3099 <= r <= 0x309A \/
             0xFE20 <= r <= 0xFE2F ->
     RuneWidth r = 0) /\
  utf8.runes (woman ++ zwj ++ cooking) = [0x1F469; 0x200D; 0x1F373] /\
  StringWidth (woman ++ zwj ++ cooking)
  = StringWidth woman + StringWidth zwj + StringWidth cooking /\
  StringWidth (woman ++ zwj ++ cooking) = 4 /\
  StringWidth (man ++ zwj ++ man ++ zwj ++ girl) = 6 /\
  StringWidth (whiteFlag ++ vs16 ++ zwj ++ rainbow) = 3.
Proof.
  assert (Hcomb : forall lo hi r, covers combiningMarks lo hi = true ->
                    lo <= r <= hi -> RuneWidth r = 0).
  { intros lo hi r Hc Hr. apply zero_class_width. left.
    exact (inTable_covers _ lo hi r Hc Hr). }
  split; [exact StringWidthIn_sum|].
  split; [intros s; apply StringWidthIn_sum|].
  split.
  { intros t ea a b E. rewrite !StringWidthIn_sum, E, map_app.
    apply sumZ_app. }
  split; [exact zero_class_width|].
  split.
  { intros t ea s Hall. rewrite StringWidthIn_sum.
    induction Hall as [|r l Hr _ IH]; [reflexivity|].
    cbn [map]. unfold sumZ in *. cbn [fold_right].
    rewrite (zero_class_width t ea r Hr), IH. reflexivity. }
  split; [vm_compute; reflexivity|].
  split.
  { intros r [Hr|Hr].
    - exact (Hcomb 0xFE00 0xFE0F r ltac:(vm_compute; reflexivity) Hr).
    - exact (Hcomb 0xE0100 0xE01EF r ltac:(vm_compute; reflexivity) Hr). }
  split; [intros r Hr; apply zero_class_width; left; exact Hr|].
  split.
  { intros r [Hr|[Hr|[Hr|[Hr|[Hr|[Hr|Hr]]]]]].
    - exact (Hcomb 0x0300 0x036F r ltac:(vm_compute; reflexivity) Hr).
    - exact (Hcomb 0x0483 0x0489 r ltac:(vm_compute; reflexivity) Hr).
    - exact (Hcomb 0x1AB0 0x1ACE r ltac:(vm_compute; reflexivity) Hr).
    - exact (Hcomb 0x1DC0 0x1DFF r ltac:(vm_compute; reflexivity) Hr).
    - exact (Hcomb 0x20D0 0x20F0 r ltac:(vm_compute; reflexivity) Hr).
    - exact (Hcomb 0x3099 0x309A r ltac:(vm_compute; reflexivity) Hr).
    - exact (Hcomb 0xFE20 0xFE2F r ltac:(vm_compute; reflexivity) Hr). }
  repeat split; vm_compute; reflexivity.
Qed.

End wcwidth_facts.

(* ================================================================== *)
(** * Facts: the damage model *)

Module vt_facts.
Import vt.

(** C9.  The bounds of each damage: a cell damage at (x, y) is bounded by
    [Rect(x, y, 1, 1)], a rectangle damage by the rectangle itself, a screen
    damage of w by h by [Rect(0, 0, w, h)], whatever the geometry module;
    with the rectangle read as corner, width and height, the cell's bounds
    are 1 by 1 at (x, y) and the screen's start at the origin. *)
Theorem Bounds_of_each_damage :
  (forall (G : Geometry) (x y w h : Z) (r : Rectangle),
     Bounds (CellDamage {| X := x; Y := y |}) = Rect x y 1 1 /\
     Bounds (RectDamage r) = r /\
     Bounds (ScreenDamage {| Width := w; Height := h |}) = Rect 0 0 w h /\
     RectDamage_X r = RectangleX (Bounds (RectDamage r)) /\
     RectDamage_Y r = RectangleY (Bounds (RectDamage r)) /\
     RectDamage_Width r = RectangleWidth (Bounds (RectDamage r)) /\
     RectDamage_Height r = RectangleHeight (Bounds (RectDamage r))) /\
  (forall (G : Geometry),
     Bounds (RectDamage (Rect 2 3 4 5)) = Rect 2 3 4 5 /\
     Bounds (CellDamage {| X := 1; Y := 1 |}) = Rect 1 1 1 1 /\
     Bounds (ScreenDamage {| Width := 80; Height := 24 |}) = Rect 0 0 80 24) /\
  (forall x y w h : Z,
     let c := @Bounds specGeometry (CellDamage {| X := x; Y := y |}) in
     let s := @Bounds specGeometry (ScreenDamage {| Width := w; Height := h |}) in
     (rx c, ry c, rwidth c, rheight c) = (x, y, 1, 1) /\
     (rx s, ry s, rwidth s, rheight s) = (0, 0, w, h)).
Proof.
  split; [|split].
  - intros G x y w h r. repeat split.
  - intros G. repeat split.
  - intros x y w h. split; reflexivity.
Qed.

End vt_facts.

(* ================================================================== *)
(** * Facts: the wrapper, one step at a time *)

Module cellbuf_steps.
Import ansi cellbuf.

Lemma len_app (a b : bytes) : len (a ++ b) = len a + len b.
Proof. unfold len. rewrite length_app. lia. Qed.

Lemma len_nonneg (a : bytes) : 0 <= len a.
Proof. unfold len. lia. Qed.

Lemma len_zero (a : bytes) : len a = 0 <-> a = [].
Proof.
  unfold len. split; intros E.
  - destruct a; [reflexivity|simpl in E; lia].
  - subst. reflexivity.
Qed.

(** Comparisons of the code as propositions. *)
Ltac zbool :=
  repeat match goal with
  | H : (_ >? _) = true |- _ => rewrite Z.gtb_ltb in H; apply Z.ltb_lt in H
  | H : (_ >? _) = false |- _ => rewrite Z.gtb_ltb in H; apply Z.ltb_ge in H
  | H : (_ >=? _) = true |- _ => rewrite Z.geb_leb in H; apply Z.leb_le in H
  | H : (_ >=? _) = false |- _ => rewrite Z.geb_leb in H; apply Z.leb_gt in H
  | H : (_ <? _) = true |- _ => apply Z.ltb_lt in H
  | H : (_ <? _) = false |- _ => apply Z.ltb_ge in H
  | H : (_ =? _) = true |- _ => apply Z.eqb_eq in H
  | H : (_ =? _) = false |- _ => apply Z.eqb_neq in H
  end.

(** Split on the next test of the code. *)
Ltac branch :=
  match goal with
  | |- context [if ?c then _ else _] =>
    let E := fresh "E" in destruct c eqn:E
  end.

Section Steps.
Context `{Collaborators}.

Lemma addWord_empty (st : state) : word st = [] -> addWord st = st.
Proof. intros E. unfold addWord. rewrite E. reflexivity. Qed.

Lemma addWord_flush (st : state) :
  word st <> [] ->
  addWord st = mkState (buf st ++ space st ++ word st) [] []
                 (curWidth st + len (space st) + wordLen st) 0
                 (sStyle st) (sLink st).
Proof.
  intros E. unfold addWord.
  destruct (len (word st) =? 0) eqn:E0.
  - zbool. apply len_zero in E0. contradiction.
  - cbn. rewrite <- app_assoc. reflexivity.
Qed.

(** The line width, the word width and the pending space add up to the
    same total before and after [addWord]. *)
Lemma addWord_total (st : state) :
  curWidth (addWord st) + wordLen (addWord st) + len (space (addWord st))
  = curWidth st + wordLen st + len (space st).
Proof.
  unfold addWord. branch; cbn; unfold len; cbn; lia.
Qed.

(** C6.  With a limit of 0 or less [Wrap] returns its input unchanged,
    whatever the input and the breakpoints; it does not fail. *)
Theorem Wrap_passes_through (s : bytes) (limit : Z) (breakpoints : bytes) :
  limit <= 0 -> Wrap s limit breakpoints = Some s.
Proof.
  intros Hl. unfold Wrap, StyleFormatter_Wrap. cbn [Limit].
  destruct (len s =? 0) eqn:E.
  - zbool. apply len_zero in E. subst. reflexivity.
  - replace (limit <? 1) with true by (symmetry; apply Z.ltb_lt; lia).
    reflexivity.
Qed.

(** C2, as the code has it.  [addNewline] writes, in this order: the
    hyperlink reset when a link is open, the style reset when a style is
    set, the line feed, the sequence of the running style when one is set,
    the opening sequence of the running link when one is open.  The reset
    comes before the line break and the reapplication after it; the line
    width is back to 0, the pending space is gone, and the word and the
    running style and link are untouched. *)
Theorem addNewline_resets_then_breaks_then_reapplies (st : state) :
  buf (addNewline st)
  = buf st
    ++ ((if negb (Link_Empty (sLink st)) then ResetHyperlink else [])
        ++ (if negb (Style_Empty (sStyle st)) then ResetStyle else []))
    ++ [LF]
    ++ ((if negb (Style_Empty (sStyle st))
         then Style_Sequence (sStyle st) else [])
        ++ (if negb (Link_Empty (sLink st))
            then SetHyperlink (Link_URL (sLink st)) (Link_Params (sLink st))
            else [])) /\
  (Style_Empty (sStyle st) = true -> Link_Empty (sLink st) = true ->
   buf (addNewline st) = buf st ++ [LF]) /\
  curWidth (addNewline st) = 0 /\
  space (addNewline st) = [] /\
  word (addNewline st) = word st /\
  wordLen (addNewline st) = wordLen st /\
  sStyle (addNewline st) = sStyle st /\
  sLink (addNewline st) = sLink st.
Proof.
  repeat split.
  intros Es El. cbn. unfold resetSeq, reapplySeq. rewrite Es, El. reflexivity.
Qed.

(** C3, as the code has it.  A hyphen is a breakpoint whatever the
    configured set, and so is a single rune of the configured set.  At a
    breakpoint the pending space is flushed first.  Then, when line width +
    word width + breakpoint width < limit, the word is flushed and the
    breakpoint is written to the output right behind it, so it ends that
    word on that line; otherwise the breakpoint is appended to the current
    word, which stays pending, and nothing but the space is written. *)
Theorem breakpoint_step (sf : StyleFormatter) (p : Parser) (seq : bytes)
    (width : Z) (st : state) :
  (width <> 0 ->
   process sf p [0x2D] width st = addBreak (Limit sf) [0x2D] width st) /\
  (width <> 0 -> TrimSpace_empty seq = false ->
   utf8.RuneCountInString seq = 1 ->
   runeContainsAny (fst (utf8.DecodeRune seq)) (Breakpoints sf) = true ->
   process sf p seq width st = addBreak (Limit sf) seq width st) /\
  (let limit := Limit sf in
   let r := addBreak limit seq width st in
   let cur := curWidth st + len (space st) in
   space r = [] /\
   (cur + wordLen st + width < limit -> word st <> [] ->
      buf r = buf st ++ space st ++ word st ++ seq /\
      word r = [] /\ wordLen r = 0 /\
      curWidth r = cur + wordLen st + width) /\
   (cur + wordLen st + width < limit -> word st = [] ->
      buf r = buf st ++ space st ++ seq /\
      word r = [] /\ wordLen r = wordLen st /\
      curWidth r = cur + width) /\
   (cur + wordLen st + width >= limit ->
      buf r = buf st ++ space st /\
      word r = word st ++ seq /\ wordLen r = wordLen st + width /\
      curWidth r = cur)).
Proof.
  split; [|split].
  - intros Hw. unfold process.
    replace (width =? 0) with false by (symmetry; apply Z.eqb_neq; exact Hw).
    reflexivity.
  - intros Hw Hs Hc Hb. unfold process.
    replace (width =? 0) with false by (symmetry; apply Z.eqb_neq; exact Hw).
    rewrite Hs, Hc, Hb. cbn [Z.eqb Pos.eqb andb].
    branch; reflexivity.
  - cbv zeta. unfold addBreak.
    cbn [addSpace curWidth wordLen buf word space sStyle sLink].
    split; [branch; [reflexivity|]; unfold addWord; cbn; branch; reflexivity|].
    split; [|split].
    + intros Hlt Hne.
      replace (curWidth st + len (space st) + wordLen st + width >=? Limit sf)
        with false by (symmetry; rewrite Z.geb_leb; apply Z.leb_gt; lia).
      rewrite addWord_flush by (cbn; exact Hne). cbn.
      rewrite <- !app_assoc. unfold len. cbn. repeat split; lia.
    + intros Hlt He.
      replace (curWidth st + len (space st) + wordLen st + width >=? Limit sf)
        with false by (symmetry; rewrite Z.geb_leb; apply Z.leb_gt; lia).
      rewrite addWord_empty by (cbn; exact He). cbn.
      rewrite He, <- !app_assoc. repeat split.
    + intros Hge.
      replace (curWidth st + len (space st) + wordLen st + width >=? Limit sf)
        with true by (symmetry; rewrite Z.geb_leb; apply Z.leb_le; lia).
      cbn. repeat split.
Qed.

(** The last case of the loop in closed form: an optional line break when
    the line is already over the limit, the optional flush of the word, the
    token appended, and the final test on the projected width. *)
Lemma ordinary_shape (limit : Z) (seq : bytes) (width : Z) (st : state) :
  let hard := (wordLen st + width >=? limit) && negb (len (word st) =? 0) in
  let s0 := if curWidth st >? limit then addNewline st else st in
  let s3 := mkState (buf s0 ++ (if hard then space s0 ++ word st else []))
                    ((if hard then [] else word st) ++ seq)
                    (if hard then [] else space s0)
                    (curWidth s0 + (if hard then len (space s0) + wordLen st else 0))
                    ((if hard then 0 else wordLen st) + width)
                    (sStyle st) (sLink st) in
  ordinary limit seq width st
  = if curWidth s3 + wordLen s3 + len (space s3) >? limit
    then addNewline s3 else s3.
Proof.
  cbv zeta. unfold ordinary.
  set (s0 := if curWidth st >? limit then addNewline st else st).
  assert (Ew : word s0 = word st) by (unfold s0; branch; reflexivity).
  assert (En : wordLen s0 = wordLen st) by (unfold s0; branch; reflexivity).
  assert (Es : sStyle s0 = sStyle st) by (unfold s0; branch; reflexivity).
  assert (El : sLink s0 = sLink st) by (unfold s0; branch; reflexivity).
  clearbody s0.
  rewrite En.
  destruct (wordLen st + width >=? limit) eqn:Eg; cbn [andb].
  - unfold addWord. rewrite Ew.
    destruct (len (word st) =? 0) eqn:E0; cbn [negb].
    + rewrite Ew, En, Es, El, app_nil_r, Z.add_0_r. reflexivity.
    + cbn [addSpace buf word space curWidth wordLen sStyle sLink].
      rewrite Ew, En, Es, El, <- app_assoc.
      replace (curWidth s0 + (len (space s0) + wordLen st))
        with (curWidth s0 + len (space s0) + wordLen st) by lia.
      reflexivity.
  - rewrite Ew, En, Es, El, app_nil_r, Z.add_0_r. reflexivity.
Qed.


(** C8.  The retention of the pending space, at a line feed and after the
    loop.  When no word is pending (word width 0) the same decision is
    taken in both places: if line width + pending space (the length of
    its buffer) exceeds the limit the space is discarded and the line
    width reset to 0, otherwise the space is written to the output; the
    space buffer is emptied either way.  What is left in the word buffer
    is then flushed, that is written to the output behind the space that
    was kept: after the loop this is the result; at a line feed the line
    break follows and the line feed is put in the word.  With a word
    pending the decision is skipped in both places and the flush writes
    the space and the word. *)
Theorem space_retention (sf : StyleFormatter) (p : Parser) (st : state) :
  let brk := resetSeq (sStyle st) (sLink st) ++ [LF]
               ++ reapplySeq (sStyle st) (sLink st) in
  (wordLen st = 0 ->
   (curWidth st + len (space st) > Limit sf ->
      lineFeedSpace (Limit sf) st
      = mkState (buf st) (word st) [] 0 0 (sStyle st) (sLink st) /\
      finish (Limit sf) st = buf st ++ word st /\
      control sf p [LF] st
      = mkState (buf st ++ word st ++ brk) [LF] [] 0 0
                (sStyle st) (sLink st)) /\
   (curWidth st + len (space st) <= Limit sf ->
      lineFeedSpace (Limit sf) st
      = mkState (buf st ++ space st) (word st) [] (curWidth st) 0
                (sStyle st) (sLink st) /\
      finish (Limit sf) st = buf st ++ space st ++ word st /\
      control sf p [LF] st
      = mkState (buf st ++ space st ++ word st ++ brk) [LF] [] 0 0
                (sStyle st) (sLink st))) /\
  (wordLen st <> 0 -> word st <> [] ->
   lineFeedSpace (Limit sf) st = st /\
   finish (Limit sf) st = buf st ++ space st ++ word st /\
   control sf p [LF] st
   = mkState (buf st ++ space st ++ word st ++ brk) [LF] [] 0 0
             (sStyle st) (sLink st)) /\
  (wordLen st <> 0 -> word st = [] ->
   lineFeedSpace (Limit sf) st = st /\
   finish (Limit sf) st = buf st /\
   control sf p [LF] st
   = mkState (buf st ++ brk) [LF] [] 0 (wordLen st) (sStyle st) (sLink st)).
Proof.
  cbv zeta.
  assert (Hctl : control sf p [LF] st
                 = appendWord [LF]
                     (addNewline (addWord (lineFeedSpace (Limit sf) st)))).
  { unfold control.
    change (HasCsiPrefix [LF]) with false.
    change (HasOscPrefix [LF]) with false. reflexivity. }
  rewrite Hctl. clear Hctl.
  assert (Hflush : forall b w sp c n sty lnk,
            n = 0 -> sp = [] ->
            addWord (mkState b w sp c n sty lnk)
            = mkState (b ++ w) [] [] c 0 sty lnk).
  { intros b w sp c n sty lnk -> ->. unfold addWord. cbn [word].
    destruct (len w =? 0) eqn:E; zbool.
    - apply len_zero in E. subst. rewrite app_nil_r. reflexivity.
    - cbn. rewrite app_nil_r. change (len []) with 0.
      rewrite !Z.add_0_r. reflexivity. }
  split; [|split].
  - intros E0. unfold finish, lineFeedSpace. rewrite E0. cbn [Z.eqb].
    split; intros Hc.
    + replace (curWidth st + len (space st) >? Limit sf) with true
        by (symmetry; rewrite Z.gtb_ltb; apply Z.ltb_lt; lia).
      rewrite Hflush by reflexivity. unfold appendWord, addNewline. cbn.
      rewrite <- ?app_assoc. repeat split.
    + replace (curWidth st + len (space st) >? Limit sf) with false
        by (symmetry; rewrite Z.gtb_ltb; apply Z.ltb_ge; lia).
      rewrite Hflush by reflexivity. unfold appendWord, addNewline. cbn.
      rewrite <- ?app_assoc. repeat split.
  - intros Hn Hw. unfold finish, lineFeedSpace.
    replace (wordLen st =? 0) with false by (symmetry; apply Z.eqb_neq; exact Hn).
    rewrite addWord_flush by exact Hw. unfold appendWord, addNewline. cbn.
    rewrite <- ?app_assoc. repeat split.
  - intros Hn Hw. unfold finish, lineFeedSpace.
    replace (wordLen st =? 0) with false by (symmetry; apply Z.eqb_neq; exact Hn).
    rewrite addWord_empty by exact Hw. unfold appendWord, addNewline. cbn.
    rewrite Hw. repeat split.
Qed.

(** What a line-feed token does to the state: the word is flushed, the
    line break written, and the line feed itself put in the word buffer. *)
Lemma line_feed_control (sf : StyleFormatter) (p : Parser) (st : state) :
  control sf p [LF] st
  = appendWord [LF] (addNewline (addWord (lineFeedSpace (Limit sf) st))).
Proof.
  unfold control.
  change (HasCsiPrefix [LF]) with false.
  change (HasOscPrefix [LF]) with false.
  reflexivity.
Qed.

Lemma addWord_word (st : state) : word (addWord st) = [].
Proof.
  unfold addWord. destruct (len (word st) =? 0) eqn:E; [|reflexivity].
  zbool. apply len_zero. exact E.
Qed.

Lemma addWord_style (st : state) :
  sStyle (addWord st) = sStyle st /\ sLink (addWord st) = sLink st.
Proof. unfold addWord. branch; split; reflexivity. Qed.

Lemma lineFeedSpace_style (limit : Z) (st : state) :
  sStyle (lineFeedSpace limit st) = sStyle st /\
  sLink (lineFeedSpace limit st) = sLink st.
Proof. unfold lineFeedSpace. repeat branch; split; reflexivity. Qed.

(** C10, as the code has it.  A line-feed token triggers the line break
    and is then put, verbatim, in the word buffer, which the flush before
    the break has left empty; the next flush writes it to the output right
    behind what the line break wrote.  So the output holds the line feed of
    the break, the reapplication sequences of the running style and link,
    and the line feed of the input: two line feeds in a row when no style
    and no link is active.  With the reference collaborators
    [Wrap("\n", limit, no breakpoints)] is two line feeds for every limit
    of 1 or more. *)
Theorem line_feed_is_doubled (sf : StyleFormatter) (p : Parser) (st : state) :
  let r := control sf p [LF] st in
  word r = [LF] /\ space r = [] /\ curWidth r = 0 /\
  sStyle r = sStyle st /\ sLink r = sLink st /\
  (exists pre,
     buf r = pre ++ resetSeq (sStyle st) (sLink st) ++ [LF]
                 ++ reapplySeq (sStyle st) (sLink st) /\
     buf (addWord r)
     = pre ++ resetSeq (sStyle st) (sLink st) ++ [LF]
           ++ reapplySeq (sStyle st) (sLink st) ++ [LF] /\
     (0 <= Limit sf ->
      finish (Limit sf) r
      = pre ++ resetSeq (sStyle st) (sLink st) ++ [LF]
            ++ reapplySeq (sStyle st) (sLink st) ++ [LF]) /\
     (Style_Empty (sStyle st) = true -> Link_Empty (sLink st) = true ->
      buf (addWord r) = pre ++ [LF; LF])) /\
  (forall limit, 1 <= limit -> model.Wrap [LF] limit [] = Some [LF; LF]).
Proof.
  cbv zeta. rewrite line_feed_control.
  set (s1 := addWord (lineFeedSpace (Limit sf) st)).
  assert (Ew : word s1 = []) by apply addWord_word.
  assert (Es : sStyle s1 = sStyle st /\ sLink s1 = sLink st).
  { unfold s1. destruct (addWord_style (lineFeedSpace (Limit sf) st)) as [-> ->].
    apply lineFeedSpace_style. }
  destruct Es as [Es El]. clearbody s1.
  unfold appendWord, addNewline.
  cbn [buf word space curWidth wordLen sStyle sLink].
  rewrite Ew, Es, El. cbn [app].
  repeat split.
  - exists (buf s1). repeat split.
    + unfold addWord. cbn [buf word space curWidth wordLen sStyle sLink addSpace].
      change (len [LF] =? 0) with false. cbv iota.
      cbn [buf word space curWidth wordLen sStyle sLink].
      rewrite app_nil_r, <- !app_assoc. reflexivity.
    + intros Hl. unfold finish.
      cbn [buf word space curWidth wordLen sStyle sLink].
      assert (Ef : forall b c n sty lnk,
                buf (addWord (mkState b [LF] [] c n sty lnk)) = b ++ [LF]).
      { intros. unfold addWord. cbn. rewrite app_nil_r. reflexivity. }
      destruct (wordLen s1 =? 0).
      * change (len []) with 0.
        replace (0 + 0 >? Limit sf) with false
          by (symmetry; rewrite Z.gtb_ltb; apply Z.ltb_ge; lia).
        rewrite app_nil_r, Ef, <- !app_assoc. reflexivity.
      * rewrite Ef, <- !app_assoc. reflexivity.
    + intros E1 E2. unfold addWord, resetSeq, reapplySeq. rewrite E1, E2. cbn.
      rewrite !app_nil_r, <- !app_assoc. reflexivity.
  - intros limit Hl. unfold model.Wrap, Wrap, StyleFormatter_Wrap.
    cbn [Limit]. change (len [LF] =? 0) with false. cbv iota.
    replace (limit <? 1) with false by (symmetry; apply Z.ltb_ge; lia).
    assert (Hf : (0 >? limit) = false)
      by (rewrite Z.gtb_ltb; apply Z.ltb_ge; lia).
    cbn -[Z.gtb finish control].
    unfold control, initial. cbn -[Z.gtb finish lineFeedSpace addWord addNewline].
    unfold lineFeedSpace. cbn -[Z.gtb finish addWord addNewline].
    rewrite Hf. cbn -[Z.gtb]. unfold finish. cbn -[Z.gtb]. rewrite Hf. reflexivity.
Qed.

End Steps.
End cellbuf_steps.

(* ================================================================== *)
(** * Facts: the reference collaborators, and the wrapper run on them *)

Module model_facts.
Import ansi cellbuf model claimed.

Lemma csiLength_le (b : bytes) :
  forall k, csiLength b = Some k -> (1 <= k <= length b)%nat.
Proof.
  induction b as [|c r IH]; intros k E; cbn in E; [discriminate|].
  destruct (between 64 126 c).
  - injection E as <-. cbn [length]. lia.
  - destruct (between 32 63 c); [|discriminate].
    destruct (csiLength r) as [k'|]; [|discriminate].
    injection E as <-. specialize (IH k' eq_refl). cbn [length]. lia.
Qed.

Lemma oscScan_le (b : bytes) :
  forall k t, oscScan b = Some (k, t) -> (1 <= k + t <= length b)%nat.
Proof.
  induction b as [|c r IH]; intros k t E; cbn in E; [discriminate|].
  destruct (c =? BEL).
  - injection E as <- <-. cbn [length]. lia.
  - destruct (c =? ESC).
    + destruct r as [|c1 r']; [discriminate|].
      destruct (c1 =? 92); [|discriminate].
      injection E as <- <-. cbn [length]. lia.
    + destruct (oscScan r) as [[k' t']|]; [|discriminate].
      injection E as <- <-. specialize (IH k' t' eq_refl).
      cbn [length fst snd]. lia.
Qed.

(** The reference decoder keeps the guarantee of forward progress. *)
Lemma model_progress : @progress collaborators.
Proof.
  intros b state0 p Hne. cbv zeta.
  change (@DecodeSequenceInString collaborators) with decode.
  destruct b as [|c rest]; [congruence|]. unfold decode.
  destruct (c =? ESC).
  - destruct rest as [|c1 body]; [cbn; lia|].
    destruct (c1 =? 91).
    + destruct (csiLength body) as [k|] eqn:E; [|cbn; lia].
      apply csiLength_le in E. cbn [fst snd length]. lia.
    + destruct (c1 =? 93); [|cbn; lia].
      destruct (oscScan body) as [[k t]|] eqn:E; [|cbn; lia].
      apply oscScan_le in E. cbn [fst snd length]. lia.
  - destruct (between 32 126 c); [cbn; lia|].
    destruct (c <? 128); [cbn; lia|].
    pose proof (utf8_facts.DecodeRune_size (c :: rest) ltac:(congruence)) as Hn.
    destruct (utf8.DecodeRune (c :: rest)) as [r n].
    cbn [fst snd length] in *. lia.
Qed.

(** The state in which a breakpoint that does not fit arrives: the word
    [ab] is pending on an empty line and the limit is 3. *)
Example breakpoint_that_does_not_fit :
  addBreak 3 (str "-") 1 (mkState [] (str "ab") [] 0 2 [] zeroLink)
  = mkState [] (str "ab-") [] 0 3 [] zeroLink.
Proof. reflexivity. Qed.

(** C2, refuted as stated: with bold set, the line break does not come
    first; the reset ESC [ m is written before the line feed, the
    reapplication ESC [ 1 m after it.  The same shows in
    [Wrap(ESC [ 1 m "ab cd", 2, no breakpoints)]. *)
Lemma line_break_does_not_come_first :
  buf (addNewline (mkState (str "ab") [] [] 2 0 [1] zeroLink))
  = str "ab" ++ [ESC; 0x5B; 0x6D] ++ [LF] ++ [ESC; 0x5B; 0x31; 0x6D] /\
  addNewline_claimed (mkState (str "ab") [] [] 2 0 [1] zeroLink)
  = str "ab" ++ [LF] ++ [ESC; 0x5B; 0x6D] ++ [ESC; 0x5B; 0x31; 0x6D] /\
  buf (addNewline (mkState (str "ab") [] [] 2 0 [1] zeroLink))
  <> addNewline_claimed (mkState (str "ab") [] [] 2 0 [1] zeroLink) /\
  model.Wrap ([ESC] ++ str "[1mab cd") 2 []
  = Some ([ESC] ++ str "[1mab" ++ [ESC] ++ str "[m" ++ [LF]
            ++ [ESC] ++ str "[1mcd") /\
  ~ (forall st : state, buf (addNewline st) = addNewline_claimed st).
Proof.
  split; [reflexivity|]. split; [reflexivity|].
  split; [vm_compute; discriminate|].
  split; [vm_compute; reflexivity|].
  intros Hall.
  specialize (Hall (mkState (str "ab") [] [] 2 0 [1] zeroLink)).
  vm_compute in Hall. discriminate Hall.
Qed.

(** C3, refuted as stated: a hyphen that does not fit (word [ab], width
    2, limit 3) is appended to the pending word, which becomes [ab-], and
    nothing is flushed; as worded the word [ab] would be flushed and a
    fresh word [-] started.  And a hyphen that fits (limit 10) is written
    to the output behind the flushed word, not kept in the word buffer.
    [Wrap("ab-cd", 3, no breakpoints)] is ["ab-\ncd"]. *)
Lemma breakpoint_branches_are_swapped :
  (let r := addBreak 3 (str "-") 1 (mkState [] (str "ab") [] 0 2 [] zeroLink) in
   let c := addBreak_claimed 3 (str "-") 1
              (mkState [] (str "ab") [] 0 2 [] zeroLink) in
   (buf r, word r, wordLen r) = ([], str "ab-", 3) /\
   (buf c, word c, wordLen c) = (str "ab", str "-", 1)) /\
  (let r := addBreak 10 (str "-") 1 (mkState [] (str "ab") [] 0 2 [] zeroLink) in
   let c := addBreak_claimed 10 (str "-") 1
              (mkState [] (str "ab") [] 0 2 [] zeroLink) in
   (buf r, word r, wordLen r) = (str "ab-", [], 0) /\
   (buf c, word c, wordLen c) = ([], str "ab-", 3)) /\
  model.Wrap (str "ab-cd") 3 [] = Some (str "ab-" ++ [LF] ++ str "cd") /\
  ~ (forall limit seq width (st : state),
       addBreak limit seq width st = addBreak_claimed limit seq width st).
Proof.
  split; [split; reflexivity|]. split; [split; reflexivity|].
  split; [vm_compute; reflexivity|].
  intros Hall.
  specialize (Hall 3 (str "-") 1 (mkState [] (str "ab") [] 0 2 [] zeroLink)).
  apply (f_equal word) in Hall. vm_compute in Hall. discriminate Hall.
Qed.

(** C4, on the code: wrapping ["hello world"] at 5 gives ["hello\nworld"],
    two lines; wrapping that again at 5 gives ["hello\n\nworld"], three
    lines: the line feed of the first pass is written twice by the second
    pass, so a line boundary is added. *)
Theorem rewrap_adds_a_line_boundary :
  model.Wrap (str "hello world") 5 []
  = Some (str "hello" ++ [LF] ++ str "world") /\
  rewrap (str "hello world") 5 []
  = Some (str "hello" ++ [LF; LF] ++ str "world") /\
  option_map lines (model.Wrap (str "hello world") 5 [])
  = Some [str "hello"; str "world"] /\
  option_map lines (rewrap (str "hello world") 5 [])
  = Some [str "hello"; []; str "world"] /\
  model.Wrap (str "a" ++ [LF] ++ str "b") 10 []
  = Some (str "a" ++ [LF; LF] ++ str "b").
Proof. repeat split; vm_compute; reflexivity. Qed.

(** C10, refuted as stated: with bold set when the line feed arrives, the
    two line feeds of the output are not in a row; the reapplication
    ESC [ 1 m stands between them.
    [Wrap(ESC [ 1 m "\n", 5, no breakpoints)] is
    ESC [ 1 m, ESC [ m, line feed, ESC [ 1 m, line feed. *)
Lemma line_feeds_are_not_always_in_a_row :
  model.Wrap ([ESC] ++ str "[1m" ++ [LF]) 5 []
  = Some ([ESC] ++ str "[1m" ++ [ESC] ++ str "[m" ++ [LF]
            ++ [ESC] ++ str "[1m" ++ [LF]) /\
  option_map twoLineFeeds (model.Wrap ([ESC] ++ str "[1m" ++ [LF]) 5 [])
  = Some false /\
  ~ (forall s limit out, 1 <= limit -> In LF s ->
       model.Wrap s limit [] = Some out -> twoLineFeeds out = true).
Proof.
  split; [vm_compute; reflexivity|]. split; [vm_compute; reflexivity|].
  intros Hall.
  specialize (Hall ([ESC] ++ str "[1m" ++ [LF]) 5 _ ltac:(lia)
                   ltac:(vm_compute; tauto) eq_refl).
  vm_compute in Hall. discriminate Hall.
Qed.

(** C6 at work: a limit of 0 and a negative limit. *)
Lemma Wrap_passes_through_witness :
  0 <= 0 /\ -3 <= 0 /\
  model.Wrap (str "hello world") 0 [] = Some (str "hello world") /\
  model.Wrap (str "hello world") (-3) (str ".") = Some (str "hello world").
Proof.
  split; [lia|]. split; [lia|]. split.
  - apply (cellbuf_steps.Wrap_passes_through (str "hello world") 0 []). lia.
  - apply (cellbuf_steps.Wrap_passes_through (str "hello world") (-3) (str ".")).
    lia.
Defined.


(** C8 at work: [ab] is on the line, three spaces are pending, the bold
    sequence sits in the word buffer with no width, and the limit is 3:
    the spaces are discarded and the word is flushed, at the end and at a
    line feed alike. *)
Lemma space_retention_witness :
  wordLen (mkState (str "ab") ([ESC] ++ str "[1m") (str "   ") 2 0
             zeroStyle zeroLink) = 0 /\
  2 + len (str "   ") > 3 /\
  finish 3 (mkState (str "ab") ([ESC] ++ str "[1m") (str "   ") 2 0
              zeroStyle zeroLink)
  = str "ab" ++ [ESC] ++ str "[1m" /\
  buf (control {| Limit := 3; Style0 := zeroStyle; Link0 := zeroLink;
                  PreserveSpace := false; Breakpoints := [] |}
               GetParser [LF]
               (mkState (str "ab") ([ESC] ++ str "[1m") (str "   ") 2 0
                  zeroStyle zeroLink))
  = str "ab" ++ [ESC] ++ str "[1m" ++ [LF].
Proof.
  split; [reflexivity|]. split; [cbn; lia|].
  pose proof (cellbuf_steps.space_retention
                {| Limit := 3; Style0 := zeroStyle; Link0 := zeroLink;
                   PreserveSpace := false; Breakpoints := [] |}
                GetParser
                (mkState (str "ab") ([ESC] ++ str "[1m") (str "   ") 2 0
                   zeroStyle zeroLink)) as T.
  cbv zeta in T. destruct T as (T0 & _).
  destruct (T0 eq_refl) as (Tover & _).
  destruct (Tover ltac:(cbn; lia)) as (_ & Tfin & Tctl).
  split; [exact Tfin|].
  rewrite Tctl. reflexivity.
Defined.

End model_facts.

(* ================================================================== *)
(** * Facts: the output read against the token stream *)

Module cellbuf_trace.
Import ansi cellbuf.

Section Trace.
Context `{Collaborators}.

Lemma out_of_app (a b : list item) : out_of (a ++ b) = out_of a ++ out_of b.
Proof. apply flat_map_app. Qed.

Lemma in_of_app (a b : list item) : in_of (a ++ b) = in_of a ++ in_of b.
Proof. apply flat_map_app. Qed.

Lemma hide_out (l : list item) : Forall okSpace l -> out_of (map hide l) = [].
Proof.
  induction 1 as [|i l Hi _ IH]; [reflexivity|].
  cbn [map]. change (out_of (hide i :: map hide l))
    with (item_out (hide i) ++ out_of (map hide l)).
  rewrite IH, app_nil_r.
  destruct i as [t|t|sty lnk]; cbn in *; [|reflexivity|contradiction].
  destruct (isSpaceToken t) eqn:E; [reflexivity|].
  destruct Hi as [Hi|Hi]; [discriminate|exact Hi].
Qed.

Lemma hide_in (l : list item) : in_of (map hide l) = in_of l.
Proof.
  induction l as [|i l IH]; [reflexivity|].
  cbn [map]. change (in_of (hide i :: map hide l))
    with (item_in (hide i) ++ in_of (map hide l)).
  rewrite IH. destruct i as [t|t|sty lnk]; try reflexivity.
  cbn. destruct (isSpaceToken t); reflexivity.
Qed.

Lemma hide_drops (l : list item) :
  Forall okSpace l -> Forall dropsSpaceOnly (map hide l).
Proof.
  induction 1 as [|i l Hi _ IH]; constructor; [|exact IH].
  destruct i as [t|t|sty lnk]; cbn in *; auto.
  destruct (isSpaceToken t) eqn:E; cbn; auto.
Qed.

Lemma okSpace_drops (l : list item) :
  Forall okSpace l -> Forall dropsSpaceOnly l.
Proof.
  apply Forall_impl. intros [t|t|sty lnk]; cbn; auto.
Qed.

Lemma okWord_drops (l : list item) :
  Forall okWord l -> Forall dropsSpaceOnly l.
Proof.
  apply Forall_impl. intros [t|t|sty lnk]; cbn; auto.
Qed.

(** A word buffer without text holds only tokens without text. *)
Lemma okWord_empty (l : list item) :
  Forall okWord l -> out_of l = [] -> Forall okSpace l.
Proof.
  induction 1 as [|i l Hi _ IH]; intros E; constructor.
  - destruct i as [t|t|sty lnk]; cbn in *; try contradiction.
    right. apply app_eq_nil in E. tauto.
  - apply IH. change (out_of (i :: l)) with (item_out i ++ out_of l) in E.
    apply app_eq_nil in E. tauto.
Qed.

Import cellbuf_steps.

Ltac reads_intro :=
  match goal with
  | R : reads _ _ _ _ |- _ =>
    destruct R as (ib & isp & iw & Eb & Esp & Ew & Ein & Fb & Fs & Fw)
  end.

Ltac reads_close :=
  repeat split;
  rewrite ?out_of_app, ?in_of_app, ?hide_in, ?hide_out, ?app_nil_r by assumption;
  subst; rewrite ?in_of_app, <- ?app_assoc; cbn [app];
  rewrite ?app_nil_r;
  repeat (apply Forall_app; split);
  auto using hide_drops, okSpace_drops, okWord_drops, okWord_empty, Forall_nil.

Lemma R_flushSpace c b sp w : reads c b sp w -> reads c (b ++ sp) [] w.
Proof. intros R. reads_intro. exists (ib ++ isp), [], iw. reads_close. Qed.

Lemma R_flushWord c b w : reads c b [] w -> reads c (b ++ w) [] [].
Proof.
  intros R. reads_intro. exists (ib ++ isp ++ iw), [], [].
  repeat split; rewrite ?out_of_app, ?in_of_app, <- ?Esp, ?app_nil_r; subst;
    rewrite ?in_of_app; auto.
  repeat (apply Forall_app; split);
    auto using okSpace_drops, okWord_drops.
Qed.

Lemma R_dropSpace c b sp w : reads c b sp w -> reads c b [] w.
Proof.
  intros R. reads_intro. exists (ib ++ map hide isp), [], iw. reads_close.
Qed.

Lemma R_break c b sp w sty lnk :
  reads c b sp w ->
  reads c (b ++ resetSeq sty lnk ++ [LF] ++ reapplySeq sty lnk) sp w.
Proof.
  intros R. reads_intro. exists (ib ++ [Break sty lnk]), isp, iw.
  repeat split; rewrite ?out_of_app, ?in_of_app; subst;
    rewrite ?in_of_app; cbn; rewrite ?app_nil_r, <- ?app_assoc; auto.
  apply Forall_app; split; [assumption|]. constructor; [exact I|constructor].
Qed.

Lemma R_word c b sp w t : reads c b sp w -> reads (c ++ [t]) b sp (w ++ fst t).
Proof.
  intros R. reads_intro. exists ib, isp, (iw ++ [Keep t]).
  repeat split; rewrite ?out_of_app, ?in_of_app; subst;
    rewrite ?in_of_app; cbn; rewrite ?app_nil_r, <- ?app_assoc; auto.
  apply Forall_app; split; [assumption|]. constructor; [exact I|constructor].
Qed.

Lemma R_space c b sp t :
  isSpaceToken t = true -> reads c b sp [] ->
  reads (c ++ [t]) b (sp ++ fst t) [].
Proof.
  intros Ht R. reads_intro. exists ib, (isp ++ iw ++ [Keep t]), [].
  repeat split; rewrite ?out_of_app, ?in_of_app, <- ?Ew; subst;
    rewrite ?in_of_app; cbn; rewrite ?app_nil_r, <- ?app_assoc; auto.
  repeat (apply Forall_app; split); auto using okWord_empty.
  try (constructor; [left; exact Ht|constructor]).
Qed.

Lemma R_skip c b sp t :
  isSpaceToken t = true -> reads c b sp [] -> reads (c ++ [t]) b sp [].
Proof.
  intros Ht R. reads_intro. exists ib, (isp ++ iw ++ [Drop t]), [].
  repeat split; rewrite ?out_of_app, ?in_of_app, <- ?Ew; subst;
    rewrite ?in_of_app; cbn; rewrite ?app_nil_r, <- ?app_assoc; auto.
  repeat (apply Forall_app; split); auto using okWord_empty.
Qed.

Lemma R_direct c b t : reads c b [] [] -> reads (c ++ [t]) (b ++ fst t) [] [].
Proof.
  intros R. reads_intro. exists (ib ++ isp ++ iw ++ [Keep t]), [], [].
  repeat split; rewrite ?out_of_app, ?in_of_app, <- ?Ew, <- ?Esp; subst;
    rewrite ?in_of_app; cbn; rewrite ?app_nil_r, <- ?app_assoc; auto.
  repeat (apply Forall_app; split);
    auto using okSpace_drops, okWord_drops.
  try (constructor; [exact I|constructor]).
Qed.

(** What is read at the end: the output alone, once the word is flushed. *)
Lemma R_result c b sp :
  reads c b sp [] ->
  exists items,
    in_of items = c /\ b = out_of items /\ Forall dropsSpaceOnly items.
Proof.
  intros R. reads_intro. exists (ib ++ map hide isp ++ iw).
  repeat split; rewrite ?out_of_app, ?in_of_app, ?hide_in, ?hide_out, <- ?Ew,
    ?app_nil_r by assumption; subst; rewrite ?in_of_app; auto.
  repeat (apply Forall_app; split); auto using hide_drops, okWord_drops.
Qed.

Lemma S_addSpace c st : readsSt c st -> readsSt c (addSpace st).
Proof. unfold readsSt. cbn. apply R_flushSpace. Qed.

Lemma S_addWord c st : readsSt c st -> readsSt c (addWord st).
Proof.
  unfold readsSt, addWord. branch; [auto|].
  intros R. cbn. apply R_flushWord, R_flushSpace, R.
Qed.

Lemma S_addNewline c st : readsSt c st -> readsSt c (addNewline st).
Proof.
  unfold readsSt. intros R. cbn. eapply R_dropSpace, R_break, R.
Qed.

Lemma S_lineFeedSpace limit c st :
  readsSt c st -> readsSt c (lineFeedSpace limit st).
Proof.
  unfold readsSt, lineFeedSpace. intros R. repeat branch; cbn.
  - eapply R_dropSpace, R.
  - apply R_flushSpace, R.
  - exact R.
Qed.

Lemma addSpace_space st : space (addSpace st) = [].
Proof. reflexivity. Qed.

Lemma addWord_space st : space st = [] -> space (addWord st) = [].
Proof. unfold addWord. branch; auto. Qed.

Lemma S_addBreak limit seq width c st :
  readsSt c st -> readsSt (c ++ [(seq, width)]) (addBreak limit seq width st).
Proof.
  intros R. apply S_addSpace in R. unfold addBreak. branch.
  - unfold readsSt in *. cbn [buf word space] in *.
    apply (R_word _ _ _ _ (seq, width)), R.
  - pose proof (cellbuf_steps.addWord_word (addSpace st)) as Ew.
    pose proof (addWord_space (addSpace st) eq_refl) as Es.
    apply S_addWord in R. unfold readsSt in *.
    cbn [buf word space]. rewrite Ew, Es in *.
    apply (R_direct _ _ (seq, width)), R.
Qed.

Lemma S_ordinary limit seq width c st :
  readsSt c st -> readsSt (c ++ [(seq, width)]) (ordinary limit seq width st).
Proof.
  intros R. unfold ordinary.
  set (s1 := if curWidth st >? limit then addNewline st else st).
  assert (R1 : readsSt c s1) by (unfold s1; branch; auto using S_addNewline).
  clearbody s1.
  set (s2 := if wordLen s1 + width >=? limit then addWord s1 else s1).
  assert (R2 : readsSt c s2) by (unfold s2; branch; auto using S_addWord).
  clearbody s2.
  set (s3 := mkState (buf s2) (word s2 ++ seq) (space s2) (curWidth s2)
                     (wordLen s2 + width) (sStyle s2) (sLink s2)).
  assert (R3 : readsSt (c ++ [(seq, width)]) s3)
    by (unfold readsSt in *; cbn; apply (R_word _ _ _ _ (seq, width)), R2).
  clearbody s3. branch; auto using S_addNewline.
Qed.

Lemma S_whitespace sf seq width c st :
  width <> 0 -> TrimSpace_empty seq = true ->
  readsSt c st -> readsSt (c ++ [(seq, width)]) (whitespace sf seq st).
Proof.
  intros Hw Hs R.
  assert (Ht : isSpaceToken (seq, width) = true).
  { unfold isSpaceToken. cbn [fst snd]. rewrite Hs.
    apply Z.eqb_neq in Hw. rewrite Hw. reflexivity. }
  apply S_addWord in R.
  pose proof (cellbuf_steps.addWord_word st) as Ew.
  unfold whitespace, readsSt in *. branch; cbn [buf word space];
    rewrite Ew in *.
  - apply (R_space _ _ _ (seq, width) Ht), R.
  - apply (R_skip _ _ _ (seq, width) Ht), R.
Qed.

Lemma S_control sf p seq c st :
  readsSt c st -> readsSt (c ++ [(seq, 0)]) (control sf p seq st).
Proof.
  intros R. unfold control.
  match goal with
  | |- readsSt _ (appendWord _ ?s) =>
    assert (R1 : readsSt c s);
      [|unfold readsSt in *; cbn; apply (R_word _ _ _ _ (seq, 0)), R1]
  end.
  repeat branch; auto using S_addNewline, S_addWord, S_lineFeedSpace.
Qed.

(** Every round of the loop keeps the reading and adds its token to it. *)
Lemma S_process sf p seq width c st :
  readsSt c st -> readsSt (c ++ [(seq, width)]) (process sf p seq width st).
Proof.
  intros R. unfold process.
  destruct (width =? 0) eqn:E0; zbool.
  - subst. apply S_control, R.
  - destruct (TrimSpace_empty seq) eqn:Es; [apply S_whitespace; auto|].
    repeat branch; auto using S_addBreak, S_ordinary.
Qed.

(** With a decoder that makes progress the loop comes to its end within
    [length b] rounds, and the final state reads against the whole token
    stream. *)
Lemma loop_reads sf :
  progress ->
  forall fuel b state0 p st c,
    (length b <= fuel)%nat -> readsSt c st ->
    exists st', loop fuel sf b state0 p st = Some st' /\
                readsSt (c ++ tokens fuel b state0 p) st'.
Proof.
  intros Hp. induction fuel as [|fuel IH]; intros b state0 p st c Hl R.
  - destruct b; [|cbn in Hl; lia]. exists st. cbn. rewrite app_nil_r. auto.
  - destruct b as [|x r].
    + exists st. cbn. rewrite app_nil_r. auto.
    + cbn [loop tokens].
      pose proof (Hp (x :: r) state0 p ltac:(congruence)) as Hn. cbv zeta in Hn.
      destruct (DecodeSequenceInString (x :: r) state0 p)
        as [[[[seq width] n] newState] p'].
      cbn [fst snd] in Hn.
      replace (n <=? length (x :: r))%nat with true
        by (symmetry; apply Nat.leb_le; lia).
      destruct (IH (skipn n (x :: r)) newState p'
                   (process sf p' seq width st) (c ++ [(seq, width)]))
        as (st' & El & Rl).
      * rewrite length_skipn. cbn [length] in *. lia.
      * apply S_process, R.
      * exists st'. split; [exact El|].
        rewrite <- app_assoc in Rl. exact Rl.
Qed.

(** With a decoder that makes progress the token stream does not depend
    on the fuel either: [length b] rounds cut the whole input. *)
Lemma tokens_enough :
  progress ->
  forall fuel b state0 p,
    (length b <= fuel)%nat ->
    tokens fuel b state0 p = tokens (length b) b state0 p.
Proof.
  intros Hp fuel. induction fuel as [fuel IH] using lt_wf_ind.
  intros b state0 p Hl. destruct b as [|x r]; [destruct fuel; reflexivity|].
  destruct fuel as [|fuel]; [cbn [length] in Hl; lia|].
  cbn [tokens length] in *.
  pose proof (Hp (x :: r) state0 p ltac:(congruence)) as Hn. cbv zeta in Hn.
  destruct (DecodeSequenceInString (x :: r) state0 p)
    as [[[[seq width] n] newState] p'].
  cbn [fst snd length] in Hn.
  assert (Hs : (length (skipn n (x :: r)) <= length r)%nat)
    by (rewrite length_skipn; cbn [length]; lia).
  f_equal. rewrite (IH fuel) by lia.
  symmetry. apply (IH (length r)); lia.
Qed.

Lemma finish_reads limit c st :
  readsSt c st ->
  exists items,
    in_of items = c /\ finish limit st = out_of items /\
    Forall dropsSpaceOnly items.
Proof.
  intros R. unfold finish.
  match goal with
  | |- context [addWord ?s] =>
    assert (R1 : readsSt c s)
  end.
  { unfold readsSt in *. repeat branch; cbn.
    - eapply R_dropSpace, R.
    - apply R_flushSpace, R.
    - exact R. }
  apply S_addWord in R1. unfold readsSt in R1.
  rewrite cellbuf_steps.addWord_word in R1.
  apply R_result in R1. exact R1.
Qed.

(** The formatter's [Wrap]: a limit below 1 or an empty input passes
    through; otherwise the output is the token stream of the input with
    white-space tokens left out here and there and line breaks put in
    between tokens. *)
Lemma StyleFormatter_Wrap_reads sf b :
  progress ->
  exists out,
    StyleFormatter_Wrap sf b = Some out /\
    (b = [] \/ Limit sf < 1 -> out = b) /\
    (b <> [] -> 1 <= Limit sf ->
     exists items,
       in_of items = tokens (length b) b 0 GetParser /\
       out = out_of items /\
       Forall dropsSpaceOnly items).
Proof.
  intros Hp. unfold StyleFormatter_Wrap.
  destruct (len b =? 0) eqn:Eb; zbool.
  - apply cellbuf_steps.len_zero in Eb. subst. exists []. repeat split; auto.
    intros Hne. congruence.
  - assert (Hne : b <> []) by (intros ->; apply Eb; reflexivity).
    destruct (Limit sf <? 1) eqn:El; zbool.
    + exists b. repeat split; auto. intros _ Hl. lia.
    + destruct (loop_reads sf Hp (length b) b 0 GetParser (initial sf) [])
        as (st' & Eloop & R).
      * lia.
      * exists [], [], []. repeat split; constructor.
      * rewrite Eloop. cbn [option_map app] in *.
        destruct (finish_reads (Limit sf) _ st' R) as (items & Ein & Eout & Fd).
        exists (finish (Limit sf) st'). repeat split.
        -- intros [E|E]; [contradiction|lia].
        -- intros _ _. exists items. auto.
Qed.

(** C1.  Whatever the input, the limit and the breakpoints, [Wrap]
    returns, and its output holds no truncated or split sequence.  With a
    limit below 1, or an empty input, the output is the input.  Otherwise
    the output reads, from left to right, as the tokens of the input in
    their order, each one whole ([Keep]) or left out ([Drop], white space
    only), with line breaks ([Break]) in between tokens: a line feed
    between the reset and the reapplication sequences the wrapper writes
    itself.  So every escape sequence the decoder produced is in the
    output, in one piece, as it stands in the input, and no line break
    falls inside one. *)
Theorem Wrap_keeps_sequences_whole (s : bytes) (limit : Z) (breakpoints : bytes) :
  progress ->
  exists out,
    Wrap s limit breakpoints = Some out /\
    (s = [] \/ limit < 1 -> out = s) /\
    (s <> [] -> 1 <= limit ->
     exists items,
       in_of items = tokens (length s) s 0 GetParser /\
       out = out_of items /\
       Forall dropsSpaceOnly items).
Proof.
  intros Hp. unfold Wrap.
  apply (StyleFormatter_Wrap_reads
           {| Limit := limit; Style0 := zeroStyle; Link0 := zeroLink;
              PreserveSpace := false;
              Breakpoints := utf8.runes breakpoints |} s Hp).
Qed.

End Trace.
End cellbuf_trace.

(* ================================================================== *)
(** * Facts: the reading of a run *)

Module model_runs.
Import ansi cellbuf model.

(** C1 at work, with the reference collaborators: the bold sequence, two
    words and the space between them, wrapped at 2. *)
Lemma Wrap_keeps_sequences_whole_witness :
  @progress collaborators /\
  exists out,
    model.Wrap ([ESC] ++ str "[1mab cd") 2 [] = Some out /\
    ([ESC] ++ str "[1mab cd" = [] \/ 2 < 1 -> out = [ESC] ++ str "[1mab cd") /\
    ([ESC] ++ str "[1mab cd" <> [] -> 1 <= 2 ->
     exists items,
       in_of items
       = tokens (length ([ESC] ++ str "[1mab cd")) ([ESC] ++ str "[1mab cd")
                0 GetParser /\
       out = out_of items /\
       Forall dropsSpaceOnly items).
Proof.
  split; [exact model_facts.model_progress|].
  exact (cellbuf_trace.Wrap_keeps_sequences_whole
           ([ESC] ++ str "[1mab cd") 2 [] model_facts.model_progress).
Defined.

(** The reading of that run, spelled out: the space is left out and the
    line break stands between [ab] and [cd], after the reset and before
    the bold sequence is applied again. *)
Example reading_of_a_run :
  let bold := ([ESC] ++ str "[1m", 0) in
  let items :=
    [ Keep bold; Keep (str "a", 1); Keep (str "b", 1);
      Break [1] zeroLink; Drop (str " ", 1);
      Keep (str "c", 1); Keep (str "d", 1) ] in
  in_of items
  = tokens (length ([ESC] ++ str "[1mab cd")) ([ESC] ++ str "[1mab cd")
           0 GetParser /\
  model.Wrap ([ESC] ++ str "[1mab cd") 2 [] = Some (out_of items).
Proof. split; vm_compute; reflexivity. Qed.

(** C2 at work: bold is set and a link is open; the link and the style
    are reset, the line is broken, bold is set again and the link opened
    again. *)
Lemma addNewline_witness :
  Style_Empty (sStyle (mkState (str "ab") [] [] 2 0 zeroStyle zeroLink)) = true /\
  Link_Empty (sLink (mkState (str "ab") [] [] 2 0 zeroStyle zeroLink)) = true /\
  buf (addNewline (mkState (str "ab") [] [] 2 0 zeroStyle zeroLink))
  = str "ab" ++ [LF] /\
  buf (addNewline (mkState (str "ab") [] [] 2 0 [1]
                     {| URL := str "x"; LinkParams := [] |}))
  = str "ab" ++ ([ESC] ++ str "]8;;" ++ [BEL]) ++ ([ESC] ++ str "[m")
      ++ [LF] ++ ([ESC] ++ str "[1m") ++ ([ESC] ++ str "]8;;x" ++ [BEL]).
Proof.
  split; [reflexivity|]. split; [reflexivity|]. split.
  - apply (proj1 (proj2 (cellbuf_steps.addNewline_resets_then_breaks_then_reapplies
                           (mkState (str "ab") [] [] 2 0 zeroStyle zeroLink))));
      reflexivity.
  - exact (proj1 (cellbuf_steps.addNewline_resets_then_breaks_then_reapplies
                    (mkState (str "ab") [] [] 2 0 [1]
                       {| URL := str "x"; LinkParams := [] |}))).
Defined.

(** The style of the reapplication can run ahead of the text: with [c]
    and then the bold sequence pending in the word when [d] breaks the
    line, bold is applied at the start of the new line, before [c]. *)
Example reapplied_style_runs_ahead :
  model.Wrap (str "ab c" ++ [ESC] ++ str "[1md") 4 []
  = Some (str "ab" ++ [ESC] ++ str "[m" ++ [LF] ++ [ESC] ++ str "[1m"
            ++ str "c" ++ [ESC] ++ str "[1md").
Proof. vm_compute. reflexivity. Qed.

(** C3 at work: a hyphen with no breakpoints configured, word [ab]
    pending, limit 3: it does not fit and joins the word. *)
Lemma breakpoint_step_witness :
  1 <> 0 /\
  0 + len [] + 2 + 1 >= 3 /\
  process {| Limit := 3; Style0 := zeroStyle; Link0 := zeroLink;
             PreserveSpace := false; Breakpoints := [] |}
          GetParser [0x2D] 1
          (mkState [] (str "ab") [] 0 2 zeroStyle zeroLink)
  = addBreak 3 [0x2D] 1 (mkState [] (str "ab") [] 0 2 zeroStyle zeroLink) /\
  word (addBreak 3 [0x2D] 1 (mkState [] (str "ab") [] 0 2 zeroStyle zeroLink))
  = str "ab-".
Proof.
  split; [lia|]. split; [cbn; lia|].
  pose proof (cellbuf_steps.breakpoint_step
                {| Limit := 3; Style0 := zeroStyle; Link0 := zeroLink;
                   PreserveSpace := false; Breakpoints := [] |}
                GetParser [0x2D] 1
                (mkState [] (str "ab") [] 0 2 zeroStyle zeroLink)) as T.
  destruct T as (Thyphen & _ & Tbreak). cbv zeta in Tbreak.
  destruct Tbreak as (_ & _ & _ & Tno).
  split.
  - apply Thyphen. lia.
  - apply Tno. cbn. lia.
Defined.

(** C10 at work: a lone line feed wrapped at 7. *)
Lemma line_feed_is_doubled_witness :
  1 <= 7 /\ model.Wrap [LF] 7 [] = Some [LF; LF].
Proof.
  split; [lia|].
  apply (proj2 (cellbuf_steps.line_feed_is_doubled
                  {| Limit := 7; Style0 := zeroStyle; Link0 := zeroLink;
                     PreserveSpace := false; Breakpoints := [] |}
                  GetParser
                  (mkState [] [] [] 0 0 zeroStyle zeroLink))).
  lia.
Defined.

(** C7 at work: variation selector 16, and combining marks of several
    scripts: the acute accent, the Cyrillic titlo, the enclosing circle,
    the kana voiced sound mark and the Devanagari sign visarga. *)
Lemma StringWidth_additive_witness :
  (0xFE00 <= 0xFE0F <= 0xFE0F \/ 0xE0100 <= 0xFE0F <= 0xE01EF) /\
  wcwidth.RuneWidth 0xFE0F = 0 /\
  wcwidth.inTable 0x0301 wcwidth.combiningMarks = true /\
  wcwidth.RuneWidth 0x0301 = 0 /\
  wcwidth.RuneWidth 0x0483 = 0 /\
  wcwidth.RuneWidth 0x20DD = 0 /\
  wcwidth.RuneWidth 0x3099 = 0 /\
  wcwidth.RuneWidth 0x0903 = 0 /\
  utf8.runes (wcwidth.woman ++ wcwidth.zwj)
  = utf8.runes wcwidth.woman ++ utf8.runes wcwidth.zwj /\
  wcwidth.StringWidthIn wcwidth.unicode false (wcwidth.woman ++ wcwidth.zwj)
  = wcwidth.StringWidthIn wcwidth.unicode false wcwidth.woman
    + wcwidth.StringWidthIn wcwidth.unicode false wcwidth.zwj.
Proof.
  destruct wcwidth_facts.StringWidth_additive
    as (_ & _ & Hcat & _ & _ & _ & Hvs & Hcomb & _).
  split; [left; lia|]. split; [apply Hvs; left; lia|].
  split; [vm_compute; reflexivity|].
  split; [apply Hcomb; vm_compute; reflexivity|].
  split; [apply Hcomb; vm_compute; reflexivity|].
  split; [apply Hcomb; vm_compute; reflexivity|].
  split; [apply Hcomb; vm_compute; reflexivity|].
  split; [apply Hcomb; vm_compute; reflexivity|].
  split; [vm_compute; reflexivity|].
  apply Hcat. vm_compute. reflexivity.
Defined.

End model_runs.

(* ================================================================== *)
(** * More facts on the wrapper *)

Module cellbuf_more.
Import ansi cellbuf cellbuf_steps.

Section More.
Context `{Collaborators}.

(** X1.  [runeContainsAny] answers true exactly when the rune is one of
    the runes of the set; the order of the set and repetitions in it do not
    matter. *)
Theorem runeContainsAny_iff_member (r : Z) (s : list Z) :
  runeContainsAny r s = true <-> In r s.
Proof.
  unfold runeContainsAny. rewrite existsb_exists. split.
  - intros (c & Hin & E). zbool. subst. exact Hin.
  - intros Hin. exists r. split; [exact Hin|apply Z.eqb_refl].
Qed.

Lemma addSpace_content (st : state) :
  buf (addSpace st) ++ space (addSpace st) ++ word (addSpace st)
  = buf st ++ space st ++ word st.
Proof. cbn. rewrite <- app_assoc. reflexivity. Qed.

Lemma addWord_content (st : state) :
  buf (addWord st) ++ space (addWord st) ++ word (addWord st)
  = buf st ++ space st ++ word st.
Proof.
  unfold addWord. branch; [reflexivity|]. cbn.
  rewrite app_nil_r, <- app_assoc. reflexivity.
Qed.

(** X2.  [addSpace] appends the pending space to the output, adds its
    length to the line width and empties the space buffer.  [addWord] does
    nothing when the word buffer is empty; otherwise it appends the pending
    space and then the word to the output, adds their widths to the line
    width and empties both buffers and the word width.  So flushing keeps
    the text in its order (output, then space, then word) and the total
    of line width, word width and pending space; flushing twice is
    flushing once, and the two flushes commute. *)
Theorem flushing_conserves_text_and_width (st : state) :
  addSpace st
  = mkState (buf st ++ space st) (word st) []
            (curWidth st + len (space st)) (wordLen st)
            (sStyle st) (sLink st) /\
  (word st = [] -> addWord st = st) /\
  (word st <> [] ->
   addWord st
   = mkState (buf st ++ space st ++ word st) [] []
             (curWidth st + len (space st) + wordLen st) 0
             (sStyle st) (sLink st)) /\
  buf (addWord st) ++ space (addWord st) ++ word (addWord st)
  = buf st ++ space st ++ word st /\
  curWidth (addWord st) + wordLen (addWord st) + len (space (addWord st))
  = curWidth st + wordLen st + len (space st) /\
  buf (addSpace st) ++ space (addSpace st) ++ word (addSpace st)
  = buf st ++ space st ++ word st /\
  curWidth (addSpace st) + wordLen (addSpace st) + len (space (addSpace st))
  = curWidth st + wordLen st + len (space st) /\
  addWord (addWord st) = addWord st /\
  addSpace (addSpace st) = addSpace st /\
  addSpace (addWord st) = addWord (addSpace st).
Proof.
  split; [reflexivity|].
  split; [apply addWord_empty|].
  split; [apply addWord_flush|].
  split; [apply addWord_content|].
  split; [apply addWord_total|].
  split; [apply addSpace_content|].
  split; [cbn; unfold len; cbn; lia|].
  split; [apply addWord_empty, addWord_word|].
  split.
  - unfold addSpace. cbn. rewrite app_nil_r.
    change (len []) with 0. rewrite Z.add_0_r. reflexivity.
  - unfold addWord. cbn [addSpace word].
    destruct (len (word st) =? 0) eqn:E; [reflexivity|].
    unfold addSpace. cbn. rewrite !app_nil_r. change (len []) with 0.
    rewrite !Z.add_0_r. reflexivity.
Qed.

Lemma single_line_feed (seq : bytes) :
  (len seq =? 1) && (nth 0 seq 0 =? LF) = true -> seq = [LF].
Proof.
  intros E. apply andb_true_iff in E. destruct E as [E1 E2]. zbool.
  destruct seq as [|c [|d r]]; cbn in *; try (unfold len in E1; cbn in E1; lia).
  subst. reflexivity.
Qed.

(** X3.  A control token other than a line feed (an escape sequence, a
    control code) writes nothing to the output: the output, the pending
    space, the line width and the word width stay as they are, and the
    token is appended to the word, to travel with it. *)
Theorem control_token_writes_nothing (sf : StyleFormatter) (p : Parser)
    (seq : bytes) (st : state) :
  seq <> [LF] ->
  let r := process sf p seq 0 st in
  buf r = buf st /\ space r = space st /\
  curWidth r = curWidth st /\ wordLen r = wordLen st /\
  word r = word st ++ seq.
Proof.
  intros Hne. cbv zeta. unfold process. cbn [Z.eqb]. unfold control.
  destruct ((len seq =? 1) && (nth 0 seq 0 =? LF)) eqn:E.
  - apply single_line_feed in E. contradiction.
  - repeat branch; cbn; repeat split.
Qed.

Lemma addWord_frame (st : state) :
  sStyle (addWord st) = sStyle st /\ sLink (addWord st) = sLink st.
Proof. apply addWord_style. Qed.

Lemma addBreak_frame limit seq width (st : state) :
  sStyle (addBreak limit seq width st) = sStyle st /\
  sLink (addBreak limit seq width st) = sLink st.
Proof.
  unfold addBreak. branch; cbn; [split; reflexivity|].
  apply (addWord_frame (addSpace st)).
Qed.

Lemma ordinary_frame limit seq width (st : state) :
  sStyle (ordinary limit seq width st) = sStyle st /\
  sLink (ordinary limit seq width st) = sLink st.
Proof.
  rewrite ordinary_shape. cbv zeta. branch; cbn; split; reflexivity.
Qed.

Lemma whitespace_frame sf seq (st : state) :
  sStyle (whitespace sf seq st) = sStyle st /\
  sLink (whitespace sf seq st) = sLink st.
Proof.
  unfold whitespace. branch; cbn; apply addWord_frame.
Qed.

(** X4.  The running style changes at attribute-setting sequences only,
    and the running link at hyperlink sequences only: a token of width 0
    that opens as a control sequence with command [m] sets the style to
    what [ReadStyle] reads from the parameters; one that is not such and
    opens as an operating system command with command 8 sets the link to
    what [ReadLink] reads from the data; every other token, text or
    control, leaves both as they are, also when it flushes or breaks the
    line. *)
Theorem style_and_link_follow_their_sequences (sf : StyleFormatter)
    (p : Parser) (seq : bytes) (width : Z) (st : state) :
  let r := process sf p seq width st in
  let sgr := (width =? 0) && (HasCsiPrefix seq && (Command p =? 0x6D)) in
  let osc8 := (width =? 0) && negb (HasCsiPrefix seq && (Command p =? 0x6D))
              && (HasOscPrefix seq && (Command p =? 8)) in
  sStyle r = (if sgr then ReadStyle (Params p) (sStyle st) else sStyle st) /\
  sLink r = (if osc8 then ReadLink (Data p) (sLink st) else sLink st).
Proof.
  cbv zeta. unfold process.
  destruct (width =? 0) eqn:E0; cbn [andb].
  - unfold control.
    destruct (HasCsiPrefix seq && (Command p =? 109)); cbn [negb andb];
      [split; reflexivity|].
    destruct (HasOscPrefix seq && (Command p =? 8)); [split; reflexivity|].
    branch; cbn; [|split; reflexivity].
    destruct (addWord_frame (lineFeedSpace (Limit sf) st)) as [-> ->].
    apply lineFeedSpace_style.
  - repeat branch;
      auto using whitespace_frame, addBreak_frame, ordinary_frame.
Qed.

(** X5.  After an ordinary token no wider than the limit, the projected
    width of the line (line width + word width + pending space) is within
    the limit, whatever it was before: the line is broken, and the word
    flushed, as often as that takes.  The word width is taken to be 0 when
    the word buffer is empty, as it is along a run whose displayable
    tokens have text. *)
Theorem ordinary_token_ends_within_limit (limit : Z) (seq : bytes)
    (width : Z) (st : state) :
  width <= limit ->
  (word st = [] -> wordLen st = 0) ->
  let r := ordinary limit seq width st in
  curWidth r + wordLen r + len (space r) <= limit.
Proof.
  intros Hw Hword. cbv zeta. rewrite ordinary_shape. cbv zeta.
  match goal with
  | |- context [if ?c then addNewline _ else _] => destruct c eqn:Ef
  end; zbool; [|exact Ef].
  cbn [addNewline curWidth wordLen space]. change (len []) with 0.
  destruct (wordLen st + width >=? limit) eqn:Eg; zbool; cbn [andb].
  - destruct (len (word st) =? 0) eqn:E0; zbool; cbn [negb]; [|lia].
    apply len_zero in E0. rewrite (Hword E0). lia.
  - lia.
Qed.

(** X6.  A white-space token never enters the word and never breaks the
    line.  The pending word is flushed first.  Then the token is appended
    to the pending space when [PreserveSpace] is on or the line width
    after the flush is not 0, and dropped otherwise: leading space is
    dropped on a fresh line, and also behind a word without width (an
    escape sequence alone), which is flushed all the same. *)
Theorem whitespace_token (sf : StyleFormatter) (p : Parser) (seq : bytes)
    (width : Z) (st : state) :
  width <> 0 -> TrimSpace_empty seq = true ->
  let r := process sf p seq width st in
  let flushed := curWidth st + len (space st) + wordLen st in
  (word st = [] -> PreserveSpace sf = false -> curWidth st = 0 -> r = st) /\
  (word st = [] -> PreserveSpace sf = true \/ curWidth st <> 0 ->
   r = mkState (buf st) [] (space st ++ seq) (curWidth st) (wordLen st)
               (sStyle st) (sLink st)) /\
  (word st <> [] -> PreserveSpace sf = false -> flushed = 0 ->
   r = mkState (buf st ++ space st ++ word st) [] [] 0 0
               (sStyle st) (sLink st)) /\
  (word st <> [] -> PreserveSpace sf = true \/ flushed <> 0 ->
   r = mkState (buf st ++ space st ++ word st) [] seq flushed 0
               (sStyle st) (sLink st)) /\
  word r = [].
Proof.
  intros Hw Hs. cbv zeta. unfold process.
  replace (width =? 0) with false by (symmetry; apply Z.eqb_neq; exact Hw).
  rewrite Hs. unfold whitespace.
  repeat split.
  - intros He Hp Hc. rewrite addWord_empty by exact He.
    rewrite Hp, Hc. reflexivity.
  - intros He Hor. rewrite addWord_empty by exact He. rewrite He.
    destruct Hor as [Hp|Hc].
    + rewrite Hp. reflexivity.
    + replace (curWidth st =? 0) with false
        by (symmetry; apply Z.eqb_neq; exact Hc).
      rewrite orb_true_r. reflexivity.
  - intros Hne Hp Hc. rewrite addWord_flush by exact Hne. cbn.
    rewrite Hp, Hc. reflexivity.
  - intros Hne Hor. rewrite addWord_flush by exact Hne. cbn.
    destruct Hor as [Hp|Hc].
    + rewrite Hp. reflexivity.
    + replace (curWidth st + len (space st) + wordLen st =? 0) with false
        by (symmetry; apply Z.eqb_neq; exact Hc).
      rewrite orb_true_r. reflexivity.
  - branch; cbn; apply addWord_word.
Qed.

Lemma addWord_nonneg (st : state) :
  0 <= curWidth st -> 0 <= wordLen st ->
  0 <= curWidth (addWord st) /\ 0 <= wordLen (addWord st).
Proof.
  intros Hc Hn. pose proof (len_nonneg (space st)).
  unfold addWord. branch; cbn; split; lia.
Qed.

Lemma addBreak_nonneg limit seq width (st : state) :
  0 <= width -> 0 <= curWidth st -> 0 <= wordLen st ->
  0 <= curWidth (addBreak limit seq width st) /\
  0 <= wordLen (addBreak limit seq width st).
Proof.
  intros Hw Hc Hn. pose proof (len_nonneg (space st)).
  unfold addBreak. branch; cbn [curWidth wordLen addSpace]; [split; lia|].
  destruct (addWord_nonneg (addSpace st)) as [Hc' Hn'];
    cbn [addSpace curWidth wordLen] in *; lia.
Qed.

Lemma ordinary_nonneg limit seq width (st : state) :
  0 <= width -> 0 <= curWidth st -> 0 <= wordLen st ->
  0 <= curWidth (ordinary limit seq width st) /\
  0 <= wordLen (ordinary limit seq width st).
Proof.
  intros Hw Hc Hn. pose proof (len_nonneg (space st)).
  rewrite ordinary_shape. cbv zeta.
  repeat (branch; cbn [addNewline buf word space curWidth wordLen]);
    change (len []) with 0; split; lia.
Qed.

Lemma process_nonneg (sf : StyleFormatter) (p : Parser) (seq : bytes)
    (width : Z) (st : state) :
  0 <= width -> 0 <= curWidth st -> 0 <= wordLen st ->
  0 <= curWidth (process sf p seq width st) /\
  0 <= wordLen (process sf p seq width st).
Proof.
  intros Hw Hc Hn. unfold process.
  destruct (width =? 0).
  - unfold control, appendWord.
    repeat (branch; cbn [buf word space curWidth wordLen]); try (split; lia).
    cbn [addNewline curWidth wordLen].
    destruct (addWord_nonneg (lineFeedSpace (Limit sf) st)) as [_ Hn'];
      [unfold lineFeedSpace; repeat branch; cbn; lia
      |unfold lineFeedSpace; repeat branch; cbn; lia|].
    split; [lia|exact Hn'].
  - destruct (TrimSpace_empty seq).
    + unfold whitespace.
      destruct (addWord_nonneg st Hc Hn). branch; cbn; split; assumption.
    + repeat branch; auto using addBreak_nonneg, ordinary_nonneg.
Qed.

(** X7.  With a decoder whose widths are never negative, the line width
    and the word width are never negative either, at any point of a run:
    they are so in every state the loop reaches from one where they
    are. *)
Theorem counters_stay_nonnegative (sf : StyleFormatter) :
  (forall b state0 p,
     0 <= snd (fst (fst (fst (DecodeSequenceInString b state0 p))))) ->
  forall fuel b state0 p (st st' : state),
    0 <= curWidth st -> 0 <= wordLen st ->
    loop fuel sf b state0 p st = Some st' ->
    0 <= curWidth st' /\ 0 <= wordLen st'.
Proof.
  intros Hdec fuel. induction fuel as [|fuel IH];
    intros b state0 p st st' Hc Hn E.
  - destruct b; cbn in E; [|discriminate]. injection E as <-. auto.
  - destruct b as [|x r]; cbn [loop] in E; [injection E as <-; auto|].
    pose proof (Hdec (x :: r) state0 p) as Hw.
    destruct (DecodeSequenceInString (x :: r) state0 p)
      as [[[[seq width] n] newState] p'].
    cbn [fst snd] in Hw.
    destruct (n <=? length (x :: r))%nat; [|discriminate].
    destruct (process_nonneg sf p' seq width st Hw Hc Hn) as [Hc' Hn'].
    exact (IH _ _ _ _ _ Hc' Hn' E).
Qed.

Lemma columns_snoc (c : list (bytes * Z)) (t : bytes * Z) :
  fold_right Z.add 0 (map columns (c ++ [t]))
  = fold_right Z.add 0 (map columns c) + columns t.
Proof.
  induction c as [|x c IH]; cbn [app map fold_right]; [lia|].
  rewrite IH. lia.
Qed.

Lemma textOf_snoc (c : list (bytes * Z)) (t : bytes * Z) :
  textOf (c ++ [t]) = textOf c ++ fst t.
Proof.
  unfold textOf. rewrite flat_map_app. cbn. rewrite app_nil_r. reflexivity.
Qed.

Lemma columns_nonneg (t : bytes * Z) : 0 < snd t -> 0 <= columns t.
Proof.
  intros Hw. unfold columns. destruct (isSpaceToken t); [apply len_nonneg|lia].
Qed.

Lemma columns_sum_nonneg (l : list (bytes * Z)) :
  Forall (fun t => 0 < snd t /\ fst t <> []) l ->
  0 <= fold_right Z.add 0 (map columns l).
Proof.
  induction 1 as [|t l [Hw _] _ IH]; cbn [map fold_right]; [lia|].
  pose proof (columns_nonneg t Hw). lia.
Qed.

Ltac fin :=
  cbn [addSpace buf word space curWidth wordLen sStyle sLink app];
  try match goal with E : word _ = _ |- _ => rewrite !E end;
  rewrite ?app_nil_r, ?len_app; change (len []) with 0;
  repeat split; intros;
  first
  [ lia
  | assumption
  | reflexivity
  | rewrite <- ?app_assoc; cbn [app]; rewrite ?app_nil_r; reflexivity
  | right; right; lia
  | tauto
  | exfalso;
    match goal with
    | E : _ ++ _ = [] |- _ =>
      apply app_eq_nil in E; destruct E;
      first [contradiction | discriminate | congruence]
    end
  | congruence ].

(** A displayable token that keeps the projected width within the limit
    keeps the run on one line. *)
Lemma one_line_step (sf : StyleFormatter) (p : Parser) (seq : bytes)
    (width : Z) (c : list (bytes * Z)) (st : state) :
  onOneLine sf c st -> 0 < width -> seq <> [] ->
  PreserveSpace sf = true \/ c <> [] \/ isSpaceToken (seq, width) = false ->
  fold_right Z.add 0 (map columns (c ++ [(seq, width)])) <= Limit sf ->
  onOneLine sf (c ++ [(seq, width)]) (process sf p seq width st).
Proof.
  intros (Htext & Hsum & Hc & Hn & Hword & Hlead) Hw Hseq Hfirst Hfit.
  pose proof (len_nonneg (space st)) as Hs.
  pose proof (len_nonneg seq) as Hls.
  rewrite columns_snoc in Hfit.
  unfold onOneLine. rewrite columns_snoc, textOf_snoc. cbn [fst].
  rewrite <- Htext, <- Hsum. rewrite <- Hsum in Hfit.
  clear Htext Hsum.
  unfold columns, isSpaceToken in *. cbn [fst snd] in *.
  replace (width =? 0) with false in * by (symmetry; apply Z.eqb_neq; lia).
  cbn [negb andb] in *.
  unfold process.
  replace (width =? 0) with false by (symmetry; apply Z.eqb_neq; lia).
  assert (Hnil : c ++ [(seq, width)] <> [])
    by (intros E; apply app_eq_nil in E; destruct E; discriminate).
  destruct (TrimSpace_empty seq) eqn:Esp.
  - (* white space *)
    assert (Hkeep : PreserveSpace sf = true \/ 0 < curWidth st + wordLen st).
    { destruct Hfirst as [Hp|[Hp|Hp]]; [auto| |discriminate].
      destruct Hlead as [Hl|[Hl|Hl]]; [auto|contradiction|auto]. }
    unfold whitespace.
    destruct (word st) as [|w0 wr] eqn:Ew.
    + assert (E0 : wordLen st = 0) by (apply Hword; reflexivity).
      rewrite addWord_empty by (cbn; first [exact Ew | reflexivity]).
      replace (PreserveSpace sf || negb (curWidth st =? 0)) with true.
      2:{ symmetry. destruct Hkeep as [Hp|Hp]; [rewrite Hp; reflexivity|].
          replace (curWidth st =? 0) with false
            by (symmetry; apply Z.eqb_neq; lia).
          apply orb_true_r. }
      cbn [buf word space curWidth wordLen]. rewrite ?Ew. fin.
    + assert (E0 : wordLen st <> 0)
        by (intros Ez; apply Hword in Ez; discriminate).
      rewrite addWord_flush by (cbn; rewrite ?Ew; discriminate).
      cbn [buf word space curWidth wordLen].
      replace (curWidth st + len (space st) + wordLen st =? 0) with false
        by (symmetry; apply Z.eqb_neq; lia).
      rewrite orb_true_r. cbn [buf word space curWidth wordLen].
      rewrite ?Ew. fin.
  - (* a breakpoint or an ordinary glyph *)
    assert (Hbreak :
              buf (addBreak (Limit sf) seq width st)
                ++ space (addBreak (Limit sf) seq width st)
                ++ word (addBreak (Limit sf) seq width st)
              = (buf st ++ space st ++ word st) ++ seq /\
              curWidth (addBreak (Limit sf) seq width st)
                + wordLen (addBreak (Limit sf) seq width st)
                + len (space (addBreak (Limit sf) seq width st))
              = curWidth st + wordLen st + len (space st) + width /\
              0 <= curWidth (addBreak (Limit sf) seq width st) /\
              0 <= wordLen (addBreak (Limit sf) seq width st) /\
              (word (addBreak (Limit sf) seq width st) = []
               <-> wordLen (addBreak (Limit sf) seq width st) = 0) /\
              (PreserveSpace sf = true \/ c ++ [(seq, width)] = [] \/
               0 < curWidth (addBreak (Limit sf) seq width st)
                   + wordLen (addBreak (Limit sf) seq width st))).
    { unfold addBreak.
      cbn [addSpace buf word space curWidth wordLen sStyle sLink].
      branch; cbn [buf word space curWidth wordLen].
      - fin.
      - destruct (word st) as [|w0 wr] eqn:Ew.
        + assert (E0 : wordLen st = 0) by (apply Hword; reflexivity).
          rewrite addWord_empty by (cbn; first [exact Ew | reflexivity]).
          cbn [buf word space curWidth wordLen]. rewrite ?Ew. fin.
        + assert (E0 : wordLen st <> 0)
            by (intros Ez; apply Hword in Ez; discriminate).
          rewrite addWord_flush by (cbn; rewrite ?Ew; discriminate).
          cbn [buf word space curWidth wordLen]. rewrite ?Ew. fin. }
    destruct ((len seq =? 1) && (nth 0 seq 0 =? 45)); [exact Hbreak|].
    destruct ((utf8.RuneCountInString seq =? 1)
              && runeContainsAny (fst (utf8.DecodeRune seq)) (Breakpoints sf));
      [exact Hbreak|].
    clear Hbreak.
    rewrite ordinary_shape. cbv zeta.
    replace (curWidth st >? Limit sf) with false
      by (symmetry; rewrite Z.gtb_ltb; apply Z.ltb_ge; lia).
    cbn [buf word space curWidth wordLen sStyle sLink].
    destruct (word st) as [|w0 wr] eqn:Ew.
    + assert (E0 : wordLen st = 0) by (apply Hword; reflexivity).
      change (len []) with 0. cbn [Z.eqb negb]. rewrite andb_false_r, E0.
      cbn [buf word space curWidth wordLen sStyle sLink].
      match goal with
      | |- context [if ?b then addNewline _ else _] =>
        replace b with false
          by (symmetry; rewrite Z.gtb_ltb; apply Z.ltb_ge; lia)
      end.
      cbn [buf word space curWidth wordLen]. destruct seq; [congruence|]. fin.
    + assert (E0 : wordLen st <> 0)
        by (intros Ez; apply Hword in Ez; discriminate).
      replace (negb (len (w0 :: wr) =? 0)) with true
        by (unfold len; cbn [length]; symmetry; apply negb_true_iff,
              Z.eqb_neq; lia).
      rewrite andb_true_r.
      destruct (wordLen st + width >=? Limit sf);
        cbn [buf word space curWidth wordLen]; change (len []) with 0;
        match goal with
        | |- context [if ?b then addNewline _ else _] =>
          replace b with false
            by (symmetry; rewrite Z.gtb_ltb; apply Z.ltb_ge; lia)
        end;
        cbn [buf word space curWidth wordLen]; destruct seq; try congruence;
        fin.
Qed.

Lemma one_line_loop (sf : StyleFormatter) :
  progress ->
  forall fuel b state0 p st c,
    (length b <= fuel)%nat ->
    onOneLine sf c st ->
    Forall (fun t => 0 < snd t /\ fst t <> []) (tokens fuel b state0 p) ->
    PreserveSpace sf = true \/ c <> [] \/
      match tokens fuel b state0 p with
      | t :: _ => isSpaceToken t = false
      | [] => True
      end ->
    fold_right Z.add 0 (map columns c)
      + fold_right Z.add 0 (map columns (tokens fuel b state0 p))
    <= Limit sf ->
    exists st', loop fuel sf b state0 p st = Some st' /\
                onOneLine sf (c ++ tokens fuel b state0 p) st'.
Proof.
  intros Hp. induction fuel as [|fuel IH];
    intros b state0 p st c Hl Hone Hgood Hfirst Hfit.
  - destruct b; [|cbn in Hl; lia]. exists st. cbn. rewrite app_nil_r. auto.
  - destruct b as [|x r].
    + exists st. cbn. rewrite app_nil_r. auto.
    + cbn [loop tokens] in *.
      pose proof (Hp (x :: r) state0 p ltac:(congruence)) as Hn. cbv zeta in Hn.
      destruct (DecodeSequenceInString (x :: r) state0 p)
        as [[[[seq width] n] newState] p'].
      cbn [fst snd] in Hn.
      replace (n <=? length (x :: r))%nat with true
        by (symmetry; apply Nat.leb_le; lia).
      inversion Hgood as [|t l [Hw Hseq] Hrest]; subst. cbn [fst snd] in *.
      cbn [map fold_right] in Hfit.
      pose proof (columns_sum_nonneg _ Hrest) as Hpos.
      pose proof (columns_nonneg (seq, width) Hw) as Hpos1.
      destruct (IH (skipn n (x :: r)) newState p'
                   (process sf p' seq width st) (c ++ [(seq, width)]))
        as (st' & El & Rl).
      * rewrite length_skipn. cbn [length] in *. lia.
      * apply one_line_step;
          [ exact Hone | exact Hw | exact Hseq
          | destruct Hfirst as [Hf|[Hf|Hf]];
            [left; exact Hf|right; left; exact Hf|right; right; exact Hf]
          | rewrite columns_snoc; lia ].
      * exact Hrest.
      * right. left. intros E. apply app_eq_nil in E. destruct E; discriminate.
      * rewrite columns_snoc. lia.
      * exists st'. split; [exact El|].
        rewrite <- app_assoc in Rl. exact Rl.
Qed.

(** X8.  Text that fits on one line comes back as it is.  When every
    token of the input is displayable and has text, their columns (width,
    or length for white space) add up to no more than the limit, and the
    input does not open with white space (or leading space is preserved),
    [Wrap] returns the text of the tokens unchanged: nothing is dropped
    and no line break is put in. *)
Theorem text_that_fits_is_unchanged (sf : StyleFormatter) (b : bytes) :
  progress ->
  1 <= Limit sf ->
  Forall (fun t => 0 < snd t /\ fst t <> [])
         (tokens (length b) b 0 GetParser) ->
  PreserveSpace sf = true \/
    match tokens (length b) b 0 GetParser with
    | t :: _ => isSpaceToken t = false
    | [] => True
    end ->
  fold_right Z.add 0 (map columns (tokens (length b) b 0 GetParser))
  <= Limit sf ->
  StyleFormatter_Wrap sf b = Some (textOf (tokens (length b) b 0 GetParser)).
Proof.
  intros Hp Hl Hgood Hfirst Hfit. unfold StyleFormatter_Wrap.
  destruct (len b =? 0) eqn:Eb; zbool.
  - apply len_zero in Eb. subst. reflexivity.
  - replace (Limit sf <? 1) with false by (symmetry; apply Z.ltb_ge; lia).
    destruct (one_line_loop sf Hp (length b) b 0 GetParser (initial sf) [])
      as (st' & El & Hone); auto.
    + unfold onOneLine, initial. cbn. repeat split; auto; lia.
    + destruct Hfirst; auto.
    + rewrite El. cbn [option_map app] in *. f_equal.
      destruct Hone as (Htext & Hsum & Hc & Hn & Hword & _).
      pose proof (len_nonneg (space st')) as Hs.
      rewrite <- Htext. unfold finish.
      destruct (wordLen st' =? 0) eqn:E0; zbool.
      * replace (curWidth st' + len (space st') >? Limit sf) with false
          by (symmetry; rewrite Z.gtb_ltb; apply Z.ltb_ge; lia).
        assert (Ew : word st' = []) by (apply Hword; exact E0).
        rewrite addWord_empty by exact Ew. cbn. rewrite Ew, app_nil_r.
        reflexivity.
      * rewrite addWord_flush by (intros Ez; apply Hword in Ez; contradiction).
        reflexivity.
Qed.

End More.
End cellbuf_more.

(* ================================================================== *)
(** * More runs on the reference collaborators *)

Module model_more.
Import ansi cellbuf model.

Lemma RuneWidthIn_nonneg t ea r : 0 <= wcwidth.RuneWidthIn t ea r.
Proof.
  unfold wcwidth.RuneWidthIn.
  repeat match goal with
  | |- context [if ?c then _ else _] => destruct c
  end; lia.
Qed.

(** The reference decoder never returns a negative width. *)
Lemma model_widths_nonneg :
  forall b state0 p,
    0 <= snd (fst (fst (fst (@DecodeSequenceInString collaborators b state0 p)))).
Proof.
  intros b state0 p.
  change (@DecodeSequenceInString collaborators) with decode.
  destruct b as [|c rest]; [cbn; lia|]. unfold decode.
  repeat match goal with
  | |- context [if ?c then _ else _] => destruct c
  | |- context [match ?l with [] => _ | _ :: _ => _ end] => destruct l
  | |- context [match csiLength ?l with _ => _ end] => destruct (csiLength l)
  | |- context [match oscScan ?l with _ => _ end] =>
    destruct (oscScan l) as [[? ?]|]
  end; cbn [fst snd]; try lia.
  all: destruct (utf8.DecodeRune _) as [r n]; cbn [fst snd];
    apply RuneWidthIn_nonneg.
Qed.

(** X3 at work: the bold sequence arrives while [ab] is pending. *)
Lemma control_token_writes_nothing_witness :
  [ESC; 0x5B; 0x31; 0x6D] <> [LF] /\
  buf (process (H := collaborators) {| Limit := 5; Style0 := zeroStyle; Link0 := zeroLink;
                  PreserveSpace := false; Breakpoints := [] |}
               {| cmd := 0x6D; params := [1]; data := [] |}
               [ESC; 0x5B; 0x31; 0x6D] 0
               (mkState (str "x ") (str "ab") [] 2 2 zeroStyle zeroLink))
  = str "x " /\
  word (process (H := collaborators) {| Limit := 5; Style0 := zeroStyle; Link0 := zeroLink;
                   PreserveSpace := false; Breakpoints := [] |}
                {| cmd := 0x6D; params := [1]; data := [] |}
                [ESC; 0x5B; 0x31; 0x6D] 0
                (mkState (str "x ") (str "ab") [] 2 2 zeroStyle zeroLink))
  = str "ab" ++ [ESC; 0x5B; 0x31; 0x6D].
Proof.
  split; [discriminate|].
  destruct (cellbuf_more.control_token_writes_nothing (H := collaborators)
              {| Limit := 5; Style0 := zeroStyle; Link0 := zeroLink;
                 PreserveSpace := false; Breakpoints := [] |}
              {| cmd := 0x6D; params := [1]; data := [] |}
              [ESC; 0x5B; 0x31; 0x6D]
              (mkState (str "x ") (str "ab") [] 2 2 zeroStyle zeroLink)
              ltac:(discriminate))
    as (Hb & _ & _ & _ & Hw).
  split; [exact Hb|exact Hw].
Defined.

(** X5 at work: the line is 5 wide, over the limit of 3, the hyphen is
    pending, and [b] arrives. *)
Lemma ordinary_token_ends_within_limit_witness :
  1 <= 3 /\
  (word (mkState (str "a    ") (str "-") [] 5 1 zeroStyle zeroLink) = [] ->
   wordLen (mkState (str "a    ") (str "-") [] 5 1 zeroStyle zeroLink) = 0) /\
  curWidth (ordinary 3 (str "b") 1
              (mkState (str "a    ") (str "-") [] 5 1 zeroStyle zeroLink))
  + wordLen (ordinary 3 (str "b") 1
               (mkState (str "a    ") (str "-") [] 5 1 zeroStyle zeroLink))
  + len (space (ordinary 3 (str "b") 1
                  (mkState (str "a    ") (str "-") [] 5 1 zeroStyle zeroLink)))
  <= 3.
Proof.
  split; [lia|]. split; [cbn; discriminate|].
  apply (cellbuf_more.ordinary_token_ends_within_limit 3 (str "b") 1
           (mkState (str "a    ") (str "-") [] 5 1 zeroStyle zeroLink)).
  - lia.
  - cbn. discriminate.
Defined.

(** X6 at work: a space at the very start is dropped; so is a space
    behind the bold sequence alone, which is flushed; a space behind [ab]
    is kept. *)
Lemma whitespace_token_witness :
  1 <> 0 /\ TrimSpace_empty (str " ") = true /\
  process {| Limit := 5; Style0 := zeroStyle; Link0 := zeroLink;
             PreserveSpace := false; Breakpoints := [] |}
          GetParser (str " ") 1
          (mkState [] [] [] 0 0 zeroStyle zeroLink)
  = mkState [] [] [] 0 0 zeroStyle zeroLink /\
  process {| Limit := 5; Style0 := zeroStyle; Link0 := zeroLink;
             PreserveSpace := false; Breakpoints := [] |}
          GetParser (str " ") 1
          (mkState [] ([ESC] ++ str "[1m") [] 0 0 zeroStyle zeroLink)
  = mkState ([ESC] ++ str "[1m") [] [] 0 0 zeroStyle zeroLink /\
  process {| Limit := 5; Style0 := zeroStyle; Link0 := zeroLink;
             PreserveSpace := false; Breakpoints := [] |}
          GetParser (str " ") 1
          (mkState [] (str "ab") [] 0 2 zeroStyle zeroLink)
  = mkState (str "ab") [] (str " ") 2 0 zeroStyle zeroLink.
Proof.
  split; [lia|]. split; [reflexivity|].
  split; [|split].
  - apply (proj1 (cellbuf_more.whitespace_token
                    {| Limit := 5; Style0 := zeroStyle; Link0 := zeroLink;
                       PreserveSpace := false; Breakpoints := [] |}
                    GetParser (str " ") 1
                    (mkState [] [] [] 0 0 zeroStyle zeroLink)
                    ltac:(lia) eq_refl)); reflexivity.
  - pose proof (cellbuf_more.whitespace_token
                  {| Limit := 5; Style0 := zeroStyle; Link0 := zeroLink;
                     PreserveSpace := false; Breakpoints := [] |}
                  GetParser (str " ") 1
                  (mkState [] ([ESC] ++ str "[1m") [] 0 0 zeroStyle zeroLink)
                  ltac:(lia) eq_refl) as T.
    cbv zeta in T. destruct T as (_ & _ & Tdrop & _).
    apply Tdrop; [discriminate|reflexivity|reflexivity].
  - pose proof (cellbuf_more.whitespace_token
                  {| Limit := 5; Style0 := zeroStyle; Link0 := zeroLink;
                     PreserveSpace := false; Breakpoints := [] |}
                  GetParser (str " ") 1
                  (mkState [] (str "ab") [] 0 2 zeroStyle zeroLink)
                  ltac:(lia) eq_refl) as T.
    cbv zeta in T. destruct T as (_ & _ & _ & Tkeep & _).
    apply Tkeep; [discriminate|right; cbn; lia].
Defined.

(** X7 at work: the loop on ["a  -b"] at limit 2. *)
Lemma counters_stay_nonnegative_witness :
  (forall b state0 p,
     0 <= snd (fst (fst (fst (@DecodeSequenceInString collaborators
                                b state0 p))))) /\
  exists st',
    loop 5 {| Limit := 2; Style0 := zeroStyle; Link0 := zeroLink;
              PreserveSpace := false; Breakpoints := [] |}
         (str "a  -b") 0 GetParser (mkState [] [] [] 0 0 zeroStyle zeroLink)
    = Some st' /\
    0 <= curWidth st' /\ 0 <= wordLen st'.
Proof.
  split; [exact model_widths_nonneg|].
  destruct (cellbuf_trace.loop_reads
              {| Limit := 2; Style0 := zeroStyle; Link0 := zeroLink;
                 PreserveSpace := false; Breakpoints := [] |}
              model_facts.model_progress 5%nat (str "a  -b") 0 GetParser
              (mkState [] [] [] 0 0 zeroStyle zeroLink) [])
    as (st' & E & _).
  - cbn. lia.
  - exists [], [], []. repeat split; constructor.
  - exists st'. split; [exact E|].
    apply (cellbuf_more.counters_stay_nonnegative
             {| Limit := 2; Style0 := zeroStyle; Link0 := zeroLink;
                PreserveSpace := false; Breakpoints := [] |}
             model_widths_nonneg 5%nat (str "a  -b") 0 GetParser
             (mkState [] [] [] 0 0 zeroStyle zeroLink) st');
      [cbn; lia|cbn; lia|exact E].
Defined.

(** X8 at work: ["ab cd"] is five columns and the limit is 5. *)
Lemma text_that_fits_is_unchanged_witness :
  @progress collaborators /\ 1 <= 5 /\
  fold_right Z.add 0
    (map columns (tokens (length (str "ab cd")) (str "ab cd") 0 GetParser))
  <= 5 /\
  model.Wrap (str "ab cd") 5 [] = Some (str "ab cd").
Proof.
  split; [exact model_facts.model_progress|]. split; [lia|].
  split; [vm_compute; discriminate|].
  apply (cellbuf_more.text_that_fits_is_unchanged
           {| Limit := 5; Style0 := zeroStyle; Link0 := zeroLink;
              PreserveSpace := false; Breakpoints := utf8.runes [] |}
           (str "ab cd") model_facts.model_progress).
  - cbn. lia.
  - vm_compute. repeat constructor; try lia; discriminate.
  - right. vm_compute. reflexivity.
  - vm_compute. discriminate.
Defined.

End model_more.
